(** * Activity Simulator: a shallow embedding of
      [bots/controllers/generic/activity_simulator.py]

    The controller alternates OPEN and CLOSE limit orders around the position
    reported by the exchange.  One call of [determine_executor_actions] is one
    decision tick.

    Modelling conventions.
    - [Decimal] values are rationals ([Q]).  Only finite decimals are
      represented (no NaN, no Infinity) and the 28-digit context precision of
      Python's [decimal] module is not modelled: arithmetic is exact.  Several
      representations of one number ([0#1], [0#100]) stand for [Decimal("0")],
      [Decimal("0.00")]: comparisons and truthiness go through [Qeq_bool].
    - Python [float] values are rationals too; the binary rounding of float
      arithmetic is not modelled.  Clock reads are compared exactly.  The
      notional drawn by [generate_random_size_quote] goes through [float],
      [random.uniform] and [round]: its value here is an idealisation, and
      the statements below use it only as the quantity that is divided by
      the price; none of them is about its value.
    - Statements that name a product, a quotient or an absolute value of
      decimals name the operation the source applies; no statement relies on
      an identity of exact arithmetic that rounding to the context precision
      would break.
    - The imported constructors [OrderExecutorConfig] and
      [CreateExecutorAction] are taken to accept the order a tick builds.
      What is stated about [_last_order_time] and [_last_open_side] is
      stated for ticks that return; the bounds on the counters of a run hold
      for raising ticks as well, wherever the raise occurs.
    - An external call that may raise returns a [Result].  The exceptions of
      the model are instances of [Exception]; interpreter signals that
      [except Exception] lets through are outside the model.
    - The engine's attributes are threaded through a state-and-error monad
      [M]: an attribute written before an exception is raised stays written.
    - The collaborators' answers during one tick are gathered in a [World]
      record, one field per call site, together with the draws of the random
      number generator. *)

From Stdlib Require Import String QArith Qabs Qround ZArith List Bool Lia.
Import ListNotations.
Open Scope Q_scope.

(** ** Values *)

Definition Decimal := Q.
Definition float := Q.

Inductive TradeType := BUY | SELL.
Inductive PositionAction := OPEN | CLOSE.
Inductive ExecutionStrategy := LIMIT | MARKET.

Definition TradeType_eqb (a b : TradeType) : bool :=
  match a, b with
  | BUY, BUY | SELL, SELL => true
  | _, _ => false
  end.

(** [PositionAction.name.lower()] *)
Definition action_name_lower (a : PositionAction) : string :=
  match a with OPEN => "open" | CLOSE => "close" end.

(** [a < b] on decimals *)
Definition Qlt_bool (a b : Q) : bool := negb (Qle_bool b a).

(** Python truthiness of a [Decimal]: zero is falsy. *)
Definition truthy (d : Decimal) : bool := negb (Qeq_bool d 0).

(** ** Exceptions and results *)

Inductive exn :=
| TypeError
| IndexError
| DivisionByZero
| InvalidOperation
| ExternalError (msg : string).

Inductive Result (A : Type) :=
| Ok (a : A)
| Raise (e : exn).
Arguments Ok {A} a.
Arguments Raise {A} e.

Definition rbind {A B} (r : Result A) (k : A -> Result B) : Result B :=
  match r with
  | Ok a => k a
  | Raise e => Raise e
  end.

(** [a / b] on decimals, with the default traps of the [decimal] context. *)
Definition decimal_div (a b : Decimal) : Result Decimal :=
  if Qeq_bool b 0
  then (if Qeq_bool a 0 then Raise InvalidOperation else Raise DivisionByZero)
  else Ok (a / b).

(** ** Configuration *)

Record ActivitySimulatorConfig := {
  id : string;
  connector_name : string;
  trading_pair : string;
  leverage : Z;
  use_orderbook_prices : bool;
  max_orderbook_depth : Z;
  spread_bps : Decimal;
  min_order_size_quote : Decimal;
  max_order_size_quote : Decimal;
  order_interval_seconds : float;
  stale_order_seconds : float
}.

(** ** Collaborators *)

Record ExecutorInfo := {
  executor_id : string;
  executor_timestamp : float;
  is_active : bool
}.

Record Position := { amount : Decimal }.

Record OrderBookRow := { row_price : float; row_amount : float }.

(** An order book: each side is produced by a call that may raise. *)
Record OrderBook := {
  ask_entries : Result (list OrderBookRow);
  bid_entries : Result (list OrderBookRow)
}.

(** A connector.  [None] in a field: the attribute is absent ([hasattr] is
    false).  [account_positions] is given as the list that [.items()]
    iterates over. *)
Record Connector := {
  get_position : option (string -> Result (option Position));
  _perpetual_trading : option (Result (list (string * Position)))
}.

(** What the collaborators answer during one tick, per call site. *)
Record World := {
  executors_info : list ExecutorInfo;
  time_stale : float;          (* [time()] in [check_stale_executors] *)
  time_gate : float;           (* [time()] in [should_place_order] *)
  time_stamp : float;          (* [time()] when [_last_order_time] is stamped *)
  mid_gate : Result (option Decimal);      (* mid-price read of the tick *)
  mid_fallback : Result (option Decimal);  (* mid-price read of the selector *)
  get_connector : Result Connector;
  get_order_book : Result OrderBook;
  rand_side : nat;             (* draw behind [random.choice([BUY, SELL])] *)
  rand_entry : nat;            (* draw behind [random.choice(entries[:depth])] *)
  rand_bits : Z                (* the 53 random bits behind [random.random()] *)
}.

(** ** Engine state and its monad *)

Record EngineState := {
  _last_order_time : float;
  _last_open_side : option TradeType;
  _completed_roundtrips : nat;
  _replaced_orders : nat
}.

Definition initial_state : EngineState :=
  {| _last_order_time := 0;
     _last_open_side := None;
     _completed_roundtrips := 0;
     _replaced_orders := 0 |}.

Definition M (A : Type) : Type := EngineState -> Result A * EngineState.

Definition ret {A} (a : A) : M A := fun s => (Ok a, s).

Definition bind {A B} (m : M A) (k : A -> M B) : M B :=
  fun s =>
    match m s with
    | (Ok a, s') => k a s'
    | (Raise e, s') => (Raise e, s')
    end.

Definition lift {A} (r : Result A) : M A := fun s => (r, s).
Definition get : M EngineState := fun s => (Ok s, s).

Declare Scope engine_scope.
Delimit Scope engine_scope with engine.
Notation "x <- m ;; k" := (bind m (fun x => k))
  (at level 61, m at next level, right associativity) : engine_scope.
Notation "m ;;; k" := (bind m (fun _ => k))
  (at level 61, right associativity) : engine_scope.

Definition set_last_order_time (t : float) : M unit :=
  fun s => (Ok tt, {| _last_order_time := t;
                      _last_open_side := _last_open_side s;
                      _completed_roundtrips := _completed_roundtrips s;
                      _replaced_orders := _replaced_orders s |}).

Definition set_last_open_side (sd : TradeType) : M unit :=
  fun s => (Ok tt, {| _last_order_time := _last_order_time s;
                      _last_open_side := Some sd;
                      _completed_roundtrips := _completed_roundtrips s;
                      _replaced_orders := _replaced_orders s |}).

Definition incr_completed_roundtrips : M unit :=
  fun s => (Ok tt, {| _last_order_time := _last_order_time s;
                      _last_open_side := _last_open_side s;
                      _completed_roundtrips := S (_completed_roundtrips s);
                      _replaced_orders := _replaced_orders s |}).

Definition incr_replaced_orders : M unit :=
  fun s => (Ok tt, {| _last_order_time := _last_order_time s;
                      _last_open_side := _last_open_side s;
                      _completed_roundtrips := _completed_roundtrips s;
                      _replaced_orders := S (_replaced_orders s) |}).

(** ** Actions *)

Record OrderExecutorConfig := {
  timestamp : float;
  oc_connector_name : string;
  oc_trading_pair : string;
  side : TradeType;
  oc_amount : Decimal;
  price : Decimal;
  execution_strategy : ExecutionStrategy;
  position_action : PositionAction;
  oc_leverage : Z;
  (* [f"sim_{action}_{time}"], kept as its two variable parts *)
  level_id : string * float
}.

Inductive ExecutorAction :=
| StopExecutorAction (controller_id executor_id : string) (keep_position : bool)
| CreateExecutorAction (controller_id : string) (executor_config : OrderExecutorConfig).

Definition is_create (a : ExecutorAction) : bool :=
  match a with CreateExecutorAction _ _ => true | StopExecutorAction _ _ _ => false end.

(** ** Python helpers *)

(** [needle in hay] on strings. *)
Fixpoint str_in (needle hay : string) : bool :=
  if String.prefix needle hay then true
  else match hay with
       | EmptyString => false
       | String _ rest => str_in needle rest
       end.

(** [l[:stop]]: a negative [stop] counts from the end. *)
Definition slice_to {A} (l : list A) (stop : Z) : list A :=
  if (0 <=? stop)%Z
  then firstn (Z.to_nat stop) l
  else firstn (Z.to_nat (Z.of_nat (length l) + stop)) l.

(** [random.choice(l)] is [l[randbelow(len(l))]]; the tick's draw is reduced
    modulo the length.  An empty sequence raises [IndexError]. *)
Definition choice {A} (l : list A) (draw : nat) : Result A :=
  match nth_error l (draw mod length l) with
  | Some x => Ok x
  | None => Raise IndexError
  end.

(** [random.random()]: [k / 2^53] for a 53-bit integer [k]. *)
Definition random (w : World) : float :=
  (rand_bits w mod 9007199254740992)%Z # 9007199254740992.

(** [random.uniform(a, b)] is [a + (b - a) * random()]. *)
Definition uniform (w : World) (a b : float) : float :=
  a + (b - a) * random w.

(** Nearest integer, ties to even. *)
Definition round_half_even (x : Q) : Z :=
  let f := Qfloor x in
  let r := x - inject_Z f in
  match Qcompare r (1 # 2) with
  | Lt => f
  | Gt => (f + 1)%Z
  | Eq => if Z.even f then f else (f + 1)%Z
  end.

(** [round(x, 2)] *)
Definition round2 (x : float) : float :=
  inject_Z (round_half_even (x * 100)) / 100.

Definition float_of_Decimal (d : Decimal) : float := d.
(** [Decimal(str(x))] *)
Definition Decimal_of_str (x : float) : Decimal := x.

(** ** The controller *)

Section Controller.

Variable config : ActivitySimulatorConfig.
Variable w : World.

Local Open Scope engine_scope.

Definition active_executors : list ExecutorInfo :=
  filter is_active (executors_info w).

(** The [try] block of [get_exchange_position]: [Ok (Some a)] is
    [return a], [Ok None] is falling out of the block. *)
Definition get_exchange_position_try : Result (option Decimal) :=
  rbind (get_connector w) (fun connector =>
  rbind (match get_position connector with
         | Some f =>
             rbind (f (trading_pair config)) (fun pos =>
               match pos with
               | Some p => Ok (Some (amount p))
               | None => Ok None
               end)
         | None => Ok None
         end) (fun found =>
  match found with
  | Some a => Ok (Some a)
  | None =>
      match _perpetual_trading connector with
      | Some items =>
          rbind items (fun kvs =>
            Ok (option_map (fun kv => amount (snd kv))
                  (find (fun kv => str_in (trading_pair config) (fst kv)) kvs)))
      | None => Ok None
      end
  end)).

Definition get_exchange_position : Result Decimal :=
  match get_exchange_position_try with
  | Ok (Some a) => Ok a
  | Ok None => Ok 0
  | Raise _ => Ok 0
  end.

Definition generate_random_size_quote : Decimal :=
  Decimal_of_str
    (round2 (uniform w (float_of_Decimal (min_order_size_quote config))
                       (float_of_Decimal (max_order_size_quote config)))).

(** The side of the book an order of side [sd] crosses. *)
Definition crossing_entries (order_book : OrderBook) (sd : TradeType)
  : Result (list OrderBookRow) :=
  match sd with
  | BUY => ask_entries order_book
  | SELL => bid_entries order_book
  end.

Definition get_crossing_price_try (sd : TradeType) : Result (option Decimal) :=
  rbind (get_order_book w) (fun order_book =>
  rbind (crossing_entries order_book sd) (fun entries =>
  match entries with
  | [] => Ok None
  | _ :: _ =>
      let depth := Z.min (max_orderbook_depth config) (Z.of_nat (length entries)) in
      rbind (choice (slice_to entries depth) (rand_entry w)) (fun row =>
      Ok (Some (Decimal_of_str (row_price row))))
  end)).

Definition get_crossing_price (sd : TradeType) : option Decimal :=
  match get_crossing_price_try sd with
  | Ok r => r
  | Raise _ => None
  end.

(** The mid-price branch of [calculate_order_price]. *)
Definition spread_price (sd : TradeType) : Result Decimal :=
  rbind (mid_fallback w) (fun mid_price =>
  let spread := spread_bps config / 10000 in
  match mid_price with
  | None => Raise TypeError
  | Some m =>
      Ok (match sd with
          | BUY => m * (1 + spread)
          | SELL => m * (1 - spread)
          end)
  end).

Definition calculate_order_price (sd : TradeType) : Result Decimal :=
  if use_orderbook_prices config
  then match get_crossing_price sd with
       | Some p => if truthy p then Ok p else spread_price sd
       | None => spread_price sd
       end
  else spread_price sd.

Definition is_stale (current_time : float) (executor : ExecutorInfo) : bool :=
  Qle_bool (stale_order_seconds config) (current_time - executor_timestamp executor).

(** The [for] loop of [check_stale_executors], [actions] being the list
    built so far. *)
Fixpoint stale_loop (current_time : float) (todo : list ExecutorInfo)
                    (actions : list ExecutorAction) : M (list ExecutorAction) :=
  match todo with
  | [] => ret actions
  | executor :: rest =>
      if is_stale current_time executor
      then incr_replaced_orders ;;;
           stale_loop current_time rest
             (actions ++ [StopExecutorAction (id config) (executor_id executor) true])
      else stale_loop current_time rest actions
  end.

Definition check_stale_executors : M (list ExecutorAction) :=
  stale_loop (time_stale w) active_executors [].

Definition should_place_order : M bool :=
  s <- get ;;
  ret (Qle_bool (order_interval_seconds config) (time_gate w - _last_order_time s)
       && (length active_executors =? 0)%nat).

(** [not mid_price or mid_price <= 0] *)
Definition mid_price_rejected (mid_price : option Decimal) : bool :=
  match mid_price with
  | None => true
  | Some m => negb (truthy m) || Qle_bool m 0
  end.

Definition opposite (sd : TradeType) : TradeType :=
  if TradeType_eqb sd BUY then SELL else BUY.

Definition build_order (sd : TradeType) (amt px : Decimal)
                       (pa : PositionAction) : M (list ExecutorAction) :=
  set_last_order_time (time_stamp w) ;;;
  s <- get ;;
  ret [CreateExecutorAction (id config)
         {| timestamp := _last_order_time s;
            oc_connector_name := connector_name config;
            oc_trading_pair := trading_pair config;
            side := sd;
            oc_amount := amt;
            price := px;
            execution_strategy := LIMIT;
            position_action := pa;
            oc_leverage := leverage config;
            level_id := (("sim_" ++ action_name_lower pa)%string, _last_order_time s) |}].

Definition determine_executor_actions : M (list ExecutorAction) :=
  stale_actions <- check_stale_executors ;;
  match stale_actions with
  | _ :: _ => ret stale_actions
  | [] =>
      ok <- should_place_order ;;
      if negb ok then ret []
      else
        mid_price <- lift (mid_gate w) ;;
        if mid_price_rejected mid_price then ret []
        else
          position <- lift get_exchange_position ;;
          if Qeq_bool position 0
          then
            s <- get ;;
            sd <- match _last_open_side s with
                  | None => lift (choice [BUY; SELL] (rand_side w))
                  | Some last => incr_completed_roundtrips ;;; ret (opposite last)
                  end ;;
            let size_quote := generate_random_size_quote in
            px <- lift (calculate_order_price sd) ;;
            amt <- lift (decimal_div size_quote px) ;;
            set_last_open_side sd ;;;
            build_order sd amt px OPEN
          else
            let sd := if Qlt_bool position 0 then BUY else SELL in
            let amt := Qabs position in
            px <- lift (calculate_order_price sd) ;;
            build_order sd amt px CLOSE
  end.

End Controller.

(** ** Derived descriptions used by the statements *)

(** The state after [n] more cancellations have been counted. *)
Definition add_replaced (s : EngineState) (n : nat) : EngineState :=
  {| _last_order_time := _last_order_time s;
     _last_open_side := _last_open_side s;
     _completed_roundtrips := _completed_roundtrips s;
     _replaced_orders := n + _replaced_orders s |}.

(** The cancel action of one executor. *)
Definition cancel_of (config : ActivitySimulatorConfig) (e : ExecutorInfo) : ExecutorAction :=
  StopExecutorAction (id config) (executor_id e) true.

(** The active executors that are stale at the monitor's clock read. *)
Definition stale_executors (config : ActivitySimulatorConfig) (w : World) : list ExecutorInfo :=
  filter (is_stale config (time_stale w)) (active_executors w).

(** The failures of the position lookup. *)
Inductive lookup_fails (config : ActivitySimulatorConfig) (w : World) : Prop :=
| connector_unavailable e :
    get_connector w = Raise e -> lookup_fails config w
| no_position_interface c :
    get_connector w = Ok c ->
    get_position c = None -> _perpetual_trading c = None ->
    lookup_fails config w
| get_position_raises c f e :
    get_connector w = Ok c ->
    get_position c = Some f -> f (trading_pair config) = Raise e ->
    lookup_fails config w
| account_positions_raises c e :
    get_connector w = Ok c ->
    (get_position c = None \/
     exists f, get_position c = Some f /\ f (trading_pair config) = Ok None) ->
    _perpetual_trading c = Some (Raise e) ->
    lookup_fails config w
| no_position_found c :
    get_connector w = Ok c ->
    (get_position c = None \/
     exists f, get_position c = Some f /\ f (trading_pair config) = Ok None) ->
    (_perpetual_trading c = None \/
     exists kvs, _perpetual_trading c = Some (Ok kvs) /\
       forall kv, In kv kvs -> str_in (trading_pair config) (fst kv) = false) ->
    lookup_fails config w.

(** The number of book entries the selector samples from. *)
Definition sample_depth (config : ActivitySimulatorConfig) (entries : list OrderBookRow) : nat :=
  Nat.min (Z.to_nat (max_orderbook_depth config)) (length entries).

(** ** Concrete ticks

    Configurations, worlds and states on which the controller is run below. *)

(** The defaults of [ActivitySimulatorConfig]. *)
Definition default_config : ActivitySimulatorConfig :=
  {| id := "activity_simulator_1";
     connector_name := "ekiden_perpetual";
     trading_pair := "ENA-USDC";
     leverage := 1;
     use_orderbook_prices := true;
     max_orderbook_depth := 10;
     spread_bps := 10;
     min_order_size_quote := 10;
     max_order_size_quote := 50;
     order_interval_seconds := 2;
     stale_order_seconds := 5 |}.

(** Book pricing off and a spread of 100%: [spread_bps = 10000]. *)
Definition full_spread_config : ActivitySimulatorConfig :=
  {| id := "activity_simulator_1";
     connector_name := "ekiden_perpetual";
     trading_pair := "ENA-USDC";
     leverage := 1;
     use_orderbook_prices := false;
     max_orderbook_depth := 10;
     spread_bps := 10000;
     min_order_size_quote := 10;
     max_order_size_quote := 50;
     order_interval_seconds := 2;
     stale_order_seconds := 5 |}.

(** A connector whose [get_position] reports [a]. *)
Definition connector_reporting (a : Decimal) : Connector :=
  {| get_position := Some (fun _ => Ok (Some {| amount := a |}));
     _perpetual_trading := None |}.

(** Five ask levels and five bid levels around 100. *)
Definition five_level_book : OrderBook :=
  {| ask_entries := Ok [ {| row_price := 1001 # 10; row_amount := 7 |};
                         {| row_price := 1002 # 10; row_amount := 3 |};
                         {| row_price := 1003 # 10; row_amount := 9 |};
                         {| row_price := 1004 # 10; row_amount := 2 |};
                         {| row_price := 1005 # 10; row_amount := 5 |} ];
     bid_entries := Ok [ {| row_price := 999 # 10; row_amount := 4 |};
                         {| row_price := 998 # 10; row_amount := 6 |};
                         {| row_price := 997 # 10; row_amount := 1 |};
                         {| row_price := 996 # 10; row_amount := 8 |};
                         {| row_price := 995 # 10; row_amount := 2 |} ] |}.

(** A book whose only ask is priced zero. *)
Definition zero_ask_book : OrderBook :=
  {| ask_entries := Ok [ {| row_price := 0; row_amount := 7 |} ];
     bid_entries := Ok [ {| row_price := 999 # 10; row_amount := 4 |} ] |}.

(** A tick at time 100 with the given executors, mid-price reads, connector
    and book. *)
Definition tick_at_100 (executors : list ExecutorInfo)
    (mid : Result (option Decimal))
    (connector : Result Connector) (book : Result OrderBook) : World :=
  {| executors_info := executors;
     time_stale := 100;
     time_gate := 100;
     time_stamp := 100;
     mid_gate := mid;
     mid_fallback := mid;
     get_connector := connector;
     get_order_book := book;
     rand_side := 1;
     rand_entry := 7;
     rand_bits := 4503599627370496 |}.

Definition flat_world : World :=
  tick_at_100 [] (Ok (Some 100)) (Ok (connector_reporting 0)) (Ok five_level_book).

(** The scenario of a short position of 2.5 at mid-price 100. *)
Definition short_world : World :=
  tick_at_100 [] (Ok (Some 100)) (Ok (connector_reporting (- (5 # 2))))
    (Ok five_level_book).

(** One active order aged 10 seconds and one aged 1 second. *)
Definition stale_world : World :=
  tick_at_100
    [ {| executor_id := "old"; executor_timestamp := 90; is_active := true |};
      {| executor_id := "young"; executor_timestamp := 99; is_active := true |};
      {| executor_id := "done"; executor_timestamp := 50; is_active := false |} ]
    (Ok (Some 100)) (Ok (connector_reporting 0)) (Ok five_level_book).

(** One active order aged 1 second: not stale, but in the way. *)
Definition busy_world : World :=
  tick_at_100
    [ {| executor_id := "young"; executor_timestamp := 99; is_active := true |} ]
    (Ok (Some 100)) (Ok (connector_reporting 0)) (Ok five_level_book).

(** The mid-price feed raises. *)
Definition feed_down_world : World :=
  tick_at_100 [] (Raise (ExternalError "feed down"))
    (Ok (connector_reporting 0)) (Ok five_level_book).

(** The connector lookup and the book lookup both raise. *)
Definition connector_down_world : World :=
  tick_at_100 [] (Ok (Some 100))
    (Raise (ExternalError "no connector")) (Raise (ExternalError "no book")).

Definition zero_ask_world : World :=
  tick_at_100 [] (Ok (Some 100)) (Ok (connector_reporting 0)) (Ok zero_ask_book).

(** The engine after a first OPEN on the BUY side and three round trips. *)
Definition after_buy_state : EngineState :=
  {| _last_order_time := 90;
     _last_open_side := Some BUY;
     _completed_roundtrips := 3;
     _replaced_orders := 0 |}.

(** ** The status panel

    [to_format_status] renders a fixed-width text panel; the three values it
    computes before rendering are kept, the rendering is not. *)

(** [TradeType.name] *)
Definition TradeType_name (sd : TradeType) : string :=
  match sd with BUY => "BUY" | SELL => "SELL" end.

(** The local [state] of [to_format_status]. *)
Definition status_state (position : Decimal) : string :=
  if Qeq_bool position 0 then "FLAT"
  else if Qlt_bool 0 position then "LONG" else "SHORT".

(** The local [last] of [to_format_status]. *)
Definition status_last (s : EngineState) : string :=
  match _last_open_side s with
  | Some sd => TradeType_name sd
  | None => "-"
  end.

(** The local [next_side] of [to_format_status]. *)
Definition status_next_side (s : EngineState) : string :=
  match _last_open_side s with
  | Some sd => if TradeType_eqb sd BUY then "SELL" else "BUY"
  | None => "?"
  end.

(** ** The paths of a tick *)

(** [_last_order_time] stamped with the clock read of the tick. *)
Definition stamped (w : World) (s : EngineState) : EngineState :=
  {| _last_order_time := time_stamp w;
     _last_open_side := _last_open_side s;
     _completed_roundtrips := _completed_roundtrips s;
     _replaced_orders := _replaced_orders s |}.

(** One more round trip counted. *)
Definition counted (s : EngineState) : EngineState :=
  {| _last_order_time := _last_order_time s;
     _last_open_side := _last_open_side s;
     _completed_roundtrips := S (_completed_roundtrips s);
     _replaced_orders := _replaced_orders s |}.

(** [_last_open_side] set to [sd]. *)
Definition opened (sd : TradeType) (s : EngineState) : EngineState :=
  {| _last_order_time := _last_order_time s;
     _last_open_side := Some sd;
     _completed_roundtrips := _completed_roundtrips s;
     _replaced_orders := _replaced_orders s |}.

(** The side a flat tick opens on. *)
Definition next_open_side (w : World) (s : EngineState) : TradeType :=
  match _last_open_side s with
  | Some last => opposite last
  | None => match (rand_side w mod 2)%nat with O => BUY | _ => SELL end
  end.

(** The state once a flat tick has chosen its side. *)
Definition after_side_choice (s : EngineState) : EngineState :=
  match _last_open_side s with
  | Some _ => counted s
  | None => s
  end.

(** The side a positioned tick closes on. *)
Definition closing_side (position : Decimal) : TradeType :=
  if Qlt_bool position 0 then BUY else SELL.

(** The order a tick stamped at [time_stamp w] hands out. *)
Definition order_of (config : ActivitySimulatorConfig) (w : World)
    (sd : TradeType) (amt px : Decimal) (pa : PositionAction) : OrderExecutorConfig :=
  {| timestamp := time_stamp w;
     oc_connector_name := connector_name config;
     oc_trading_pair := trading_pair config;
     side := sd;
     oc_amount := amt;
     price := px;
     execution_strategy := LIMIT;
     position_action := pa;
     oc_leverage := leverage config;
     level_id := (("sim_" ++ action_name_lower pa)%string, time_stamp w) |}.

(** The gate of [should_place_order] is open. *)
Definition gate_open (config : ActivitySimulatorConfig) (w : World) (s : EngineState) : Prop :=
  active_executors w = [] /\
  order_interval_seconds config <= time_gate w - _last_order_time s.

(** Every way [determine_executor_actions] can end, with the result and the
    state it leaves. *)
Inductive tick_outcome (config : ActivitySimulatorConfig) (w : World) (s : EngineState)
  : Result (list ExecutorAction) -> EngineState -> Prop :=
| out_cancel :
    stale_executors config w <> [] ->
    tick_outcome config w s
      (Ok (map (cancel_of config) (stale_executors config w)))
      (add_replaced s (length (stale_executors config w)))
| out_gated :
    stale_executors config w = [] ->
    (active_executors w <> [] \/
     time_gate w - _last_order_time s < order_interval_seconds config) ->
    tick_outcome config w s (Ok []) s
| out_feed_raises e :
    stale_executors config w = [] -> gate_open config w s ->
    mid_gate w = Raise e ->
    tick_outcome config w s (Raise e) s
| out_no_mid_price r :
    stale_executors config w = [] -> gate_open config w s ->
    mid_gate w = Ok r -> mid_price_rejected r = true ->
    tick_outcome config w s (Ok []) s
| out_open_price_raises m position e :
    stale_executors config w = [] -> gate_open config w s ->
    mid_gate w = Ok (Some m) -> 0 < m ->
    get_exchange_position config w = Ok position -> position == 0 ->
    calculate_order_price config w (next_open_side w s) = Raise e ->
    tick_outcome config w s (Raise e) (after_side_choice s)
| out_open_division_raises m position px e :
    stale_executors config w = [] -> gate_open config w s ->
    mid_gate w = Ok (Some m) -> 0 < m ->
    get_exchange_position config w = Ok position -> position == 0 ->
    calculate_order_price config w (next_open_side w s) = Ok px ->
    px == 0 ->
    decimal_div (generate_random_size_quote config w) px = Raise e ->
    tick_outcome config w s (Raise e) (after_side_choice s)
| out_open m position px :
    stale_executors config w = [] -> gate_open config w s ->
    mid_gate w = Ok (Some m) -> 0 < m ->
    get_exchange_position config w = Ok position -> position == 0 ->
    calculate_order_price config w (next_open_side w s) = Ok px ->
    ~ px == 0 ->
    tick_outcome config w s
      (Ok [CreateExecutorAction (id config)
             (order_of config w (next_open_side w s)
                (generate_random_size_quote config w / px) px OPEN)])
      (stamped w (opened (next_open_side w s) (after_side_choice s)))
| out_close_price_raises m position e :
    stale_executors config w = [] -> gate_open config w s ->
    mid_gate w = Ok (Some m) -> 0 < m ->
    get_exchange_position config w = Ok position -> ~ position == 0 ->
    calculate_order_price config w (closing_side position) = Raise e ->
    tick_outcome config w s (Raise e) s
| out_close m position px :
    stale_executors config w = [] -> gate_open config w s ->
    mid_gate w = Ok (Some m) -> 0 < m ->
    get_exchange_position config w = Ok position -> ~ position == 0 ->
    calculate_order_price config w (closing_side position) = Ok px ->
    tick_outcome config w s
      (Ok [CreateExecutorAction (id config)
             (order_of config w (closing_side position) (Qabs position) px CLOSE)])
      (stamped w s).

(** ** Runs of ticks

    The host calls [determine_executor_actions] once per tick on the same
    controller object; a tick that raises leaves the attributes it wrote. *)
Fixpoint run_ticks (config : ActivitySimulatorConfig) (ws : list World)
    (s : EngineState) : list (Result (list ExecutorAction)) * EngineState :=
  match ws with
  | [] => ([], s)
  | w :: rest =>
      let (r, s1) := determine_executor_actions config w s in
      let (rs, s2) := run_ticks config rest s1 in
      (r :: rs, s2)
  end.

(** The orders among the actions of one tick. *)
Definition orders_of (r : Result (list ExecutorAction)) : list OrderExecutorConfig :=
  match r with
  | Ok actions =>
      flat_map (fun a => match a with
                         | CreateExecutorAction _ c => [c]
                         | StopExecutorAction _ _ _ => []
                         end) actions
  | Raise _ => []
  end.

(** The sides of the OPEN orders of a run, in order. *)
Definition open_sides (rs : list (Result (list ExecutorAction))) : list TradeType :=
  map side
    (filter (fun c => match position_action c with OPEN => true | CLOSE => false end)
       (flat_map orders_of rs)).

(** Each element is the opposite of the one before it. *)
Fixpoint alternates (prev : option TradeType) (sides : list TradeType) : Prop :=
  match sides with
  | [] => True
  | sd :: rest =>
      match prev with
      | Some p => sd = opposite p
      | None => True
      end /\ alternates (Some sd) rest
  end.

(** ** More concrete ticks *)




(** Every tick of the run returned. *)
Definition all_returned (rs : list (Result (list ExecutorAction))) : Prop :=
  Forall (fun r => exists actions, r = Ok actions) rs.

(** A depth of zero. *)
Definition zero_depth_config : ActivitySimulatorConfig :=
  {| id := "activity_simulator_1";
     connector_name := "ekiden_perpetual";
     trading_pair := "ENA-USDC";
     leverage := 1;
     use_orderbook_prices := true;
     max_orderbook_depth := 0;
     spread_bps := 10;
     min_order_size_quote := 10;
     max_order_size_quote := 50;
     order_interval_seconds := 2;
     stale_order_seconds := 5 |}.

(** Ten seconds after the ticks at time 100, flat and nothing active. *)
Definition later_flat_world : World :=
  {| executors_info := [];
     time_stale := 110;
     time_gate := 110;
     time_stamp := 110;
     mid_gate := Ok (Some 100);
     mid_fallback := Ok (Some 100);
     get_connector := Ok (connector_reporting 0);
     get_order_book := Ok five_level_book;
     rand_side := 0;
     rand_entry := 3;
     rand_bits := 1 |}.

(** The actions of a result, none for a raise. *)
Definition actions_of (r : Result (list ExecutorAction)) : list ExecutorAction :=
  match r with
  | Ok actions => actions
  | Raise _ => []
  end.

(** A depth of minus five: on a five-level book nothing is left to sample. *)
Definition negative_depth_config : ActivitySimulatorConfig :=
  {| id := "activity_simulator_1";
     connector_name := "ekiden_perpetual";
     trading_pair := "ENA-USDC";
     leverage := 1;
     use_orderbook_prices := true;
     max_orderbook_depth := -5;
     spread_bps := 10;
     min_order_size_quote := 10;
     max_order_size_quote := 50;
     order_interval_seconds := 2;
     stale_order_seconds := 5 |}.

(** [get_position] knows nothing; [account_positions] holds three keys, two
    of which contain the trading pair. *)
Definition fallback_connector : Connector :=
  {| get_position := Some (fun _ => Ok None);
     _perpetual_trading :=
       Some (Ok [ ("BTC-USDC"%string, {| amount := 9 |});
                  ("ENA-USDCLONG"%string, {| amount := 3 |});
                  ("ENA-USDCSHORT"%string, {| amount := - (4) |}) ]) |}.

Definition fallback_world : World :=
  tick_at_100 [] (Ok (Some 100)) (Ok fallback_connector) (Ok five_level_book).

(** One second after the ticks at time 100, nothing active. *)
Definition soon_after_world : World :=
  {| executors_info := [];
     time_stale := 101;
     time_gate := 101;
     time_stamp := 101;
     mid_gate := Ok (Some 100);
     mid_fallback := Ok (Some 100);
     get_connector := Ok (connector_reporting 0);
     get_order_book := Ok five_level_book;
     rand_side := 0;
     rand_entry := 0;
     rand_bits := 1 |}.

(** The executors of [stale_world], three seconds later. *)
Definition later_stale_world : World :=
  {| executors_info :=
       [ {| executor_id := "old"; executor_timestamp := 90; is_active := true |};
         {| executor_id := "young"; executor_timestamp := 99; is_active := true |} ];
     time_stale := 103;
     time_gate := 103;
     time_stamp := 103;
     mid_gate := Ok (Some 100);
     mid_fallback := Ok (Some 100);
     get_connector := Ok (connector_reporting 0);
     get_order_book := Ok five_level_book;
     rand_side := 0;
     rand_entry := 0;
     rand_bits := 1 |}.

(** The second OPEN of a cycle, the first OPEN of a fresh engine, a CLOSE, a
    cancellation and a raising tick. *)
Definition reversing_tick : Result (list ExecutorAction) * EngineState :=
  determine_executor_actions default_config flat_world after_buy_state.
Definition cold_tick : Result (list ExecutorAction) * EngineState :=
  determine_executor_actions default_config flat_world initial_state.
Definition closing_tick : Result (list ExecutorAction) * EngineState :=
  determine_executor_actions default_config short_world initial_state.
Definition cancelling_tick : Result (list ExecutorAction) * EngineState :=
  determine_executor_actions default_config stale_world initial_state.

(** The order of a result that holds exactly one, a CLOSE of nothing
    otherwise. *)
Definition order_in (config : ActivitySimulatorConfig) (w : World)
    (r : Result (list ExecutorAction)) : OrderExecutorConfig :=
  match r with
  | Ok [CreateExecutorAction _ c] => c
  | _ => order_of config w SELL 0 0 CLOSE
  end.

(** ** Proof tools *)

Ltac unfold_engine :=
  unfold bind, ret, lift, get, set_last_order_time, set_last_open_side,
    incr_completed_roundtrips, incr_replaced_orders in *.

Lemma add_replaced_0 s : add_replaced s 0 = s.
Proof. destruct s; reflexivity. Qed.

Lemma stale_loop_spec config t todo : forall actions s,
  stale_loop config t todo actions s =
  (Ok (actions ++ map (cancel_of config) (filter (is_stale config t) todo)),
   add_replaced s (length (filter (is_stale config t) todo))).
Proof.
  induction todo as [|e rest IH]; intros actions s; simpl.
  - unfold ret. now rewrite app_nil_r, add_replaced_0.
  - destruct (is_stale config t e) eqn:He; simpl.
    + unfold bind, incr_replaced_orders. rewrite IH.
      rewrite <- app_assoc. simpl. f_equal.
      unfold add_replaced; simpl. f_equal. lia.
    + apply IH.
Qed.

Lemma check_stale_executors_eq config w s :
  check_stale_executors config w s =
  (Ok (map (cancel_of config) (stale_executors config w)),
   add_replaced s (length (stale_executors config w))).
Proof. unfold check_stale_executors. now rewrite stale_loop_spec. Qed.

Lemma is_stale_iff config t e :
  is_stale config t e = true <->
  stale_order_seconds config <= t - executor_timestamp e.
Proof. unfold is_stale. apply Qle_bool_iff. Qed.

Lemma cancel_not_create config l :
  forall a, In a (map (cancel_of config) l) -> is_create a = false.
Proof.
  intros a Ha. apply in_map_iff in Ha. destruct Ha as [e [<- _]]. reflexivity.
Qed.

Lemma no_stale_nil config w s :
  fst (check_stale_executors config w s) = Ok [] ->
  check_stale_executors config w s = (Ok [], s).
Proof.
  rewrite check_stale_executors_eq. simpl. intros H.
  injection H as H. apply map_eq_nil in H. rewrite H. simpl.
  now rewrite add_replaced_0.
Qed.

(** ** The staleness monitor *)

(** C4: every active executor whose age [time - timestamp] is at least
    [stale_order_seconds] gets a cancel action with [keep_position = True],
    [_replaced_orders] grows by one per cancel action, and when the monitor
    returns a non-empty list the tick returns exactly that list, which holds
    no [CreateExecutorAction]. *)
Theorem check_stale_executors_cancels config w s :
  exists cancels,
    check_stale_executors config w s
      = (Ok cancels, add_replaced s (length cancels)) /\
    (forall e, In e (executors_info w) -> is_active e = true ->
       stale_order_seconds config <= time_stale w - executor_timestamp e ->
       In (StopExecutorAction (id config) (executor_id e) true) cancels) /\
    (forall a, In a cancels ->
       exists e, a = StopExecutorAction (id config) (executor_id e) true /\
         In e (executors_info w) /\ is_active e = true /\
         stale_order_seconds config <= time_stale w - executor_timestamp e) /\
    (cancels <> [] ->
       determine_executor_actions config w s
         = (Ok cancels, add_replaced s (length cancels)) /\
       forall a, In a cancels -> is_create a = false).
Proof.
  exists (map (cancel_of config) (stale_executors config w)).
  rewrite length_map. split; [apply check_stale_executors_eq|].
  split; [|split].
  - intros e Hin Hact Hage.
    apply (in_map (cancel_of config)).
    apply filter_In. split.
    + apply filter_In. now split.
    + now apply is_stale_iff.
  - intros a Ha. apply in_map_iff in Ha. destruct Ha as [e [<- He]].
    apply filter_In in He. destruct He as [He Hst].
    apply filter_In in He. destruct He as [Hin Hact].
    exists e. repeat split; trivial. now apply is_stale_iff.
  - intros Hne. split; [|apply cancel_not_create].
    unfold determine_executor_actions, bind.
    rewrite check_stale_executors_eq.
    destruct (map (cancel_of config) (stale_executors config w)) eqn:E.
    + contradiction.
    + reflexivity.
Qed.

(** The second of two runs counts its cancellations again. *)
Remark check_stale_executors_counts_again config w s :
  _replaced_orders
    (snd (check_stale_executors config w (snd (check_stale_executors config w s))))
  = (2 * length (stale_executors config w) + _replaced_orders s)%nat.
Proof. rewrite !check_stale_executors_eq. simpl. lia. Qed.

(** C8: a second run of the monitor at the same clock read and over the same
    executors returns the cancel actions of the first run and no other. *)
Theorem check_stale_executors_rerun config w1 w2 s :
  time_stale w2 = time_stale w1 ->
  executors_info w2 = executors_info w1 ->
  exists first second s1 s2,
    check_stale_executors config w1 s = (Ok first, s1) /\
    check_stale_executors config w2 s1 = (Ok second, s2) /\
    second = first /\
    forall a, In a second -> In a first.
Proof.
  intros Ht Hx.
  exists (map (cancel_of config) (stale_executors config w1)),
         (map (cancel_of config) (stale_executors config w2)).
  do 2 eexists. rewrite !check_stale_executors_eq.
  assert (E : stale_executors config w2 = stale_executors config w1).
  { unfold stale_executors, active_executors. now rewrite Ht, Hx. }
  repeat split. - now rewrite E. - now rewrite E.
Qed.

(** ** The gate *)

(** C3: when the monitor emits nothing, the tick returns the empty list (and
    leaves the state alone) if an active executor exists, or the time since
    [_last_order_time] is below [order_interval_seconds], or the mid-price
    read is [None] or not positive. *)
Theorem no_order_when_gated config w s :
  fst (check_stale_executors config w s) = Ok [] ->
  (active_executors w <> [] \/
   time_gate w - _last_order_time s < order_interval_seconds config \/
   mid_gate w = Ok None \/
   exists m, mid_gate w = Ok (Some m) /\ m <= 0) ->
  determine_executor_actions config w s = (Ok [], s).
Proof.
  intros Hstale Hgate.
  unfold determine_executor_actions, bind at 1.
  rewrite (no_stale_nil _ _ _ Hstale).
  unfold should_place_order. unfold_engine.
  destruct (Qle_bool (order_interval_seconds config)
              (time_gate w - _last_order_time s)) eqn:Hint; simpl; trivial.
  destruct (active_executors w) as [|e l] eqn:Hact; simpl; trivial.
  destruct Hgate as [H | [H | [H | [m [H Hm]]]]].
  - contradiction.
  - apply Qle_bool_iff in Hint. exfalso. apply (Qlt_not_le _ _ H Hint).
  - now rewrite H.
  - rewrite H. simpl.
    apply Qle_bool_iff in Hm. rewrite Hm, orb_true_r. reflexivity.
Qed.

(** ** The position oracle *)

Lemma find_none_option_map (config : ActivitySimulatorConfig) kvs :
  (forall kv : string * Position,
     In kv kvs -> str_in (trading_pair config) (fst kv) = false) ->
  find (fun kv => str_in (trading_pair config) (fst kv)) kvs = None.
Proof.
  induction kvs as [|kv rest IH]; intros H; simpl; trivial.
  rewrite (H kv (or_introl eq_refl)). apply IH.
  intros kv' Hin. apply H. now right.
Qed.

Lemma get_exchange_position_returns config w :
  exists a, get_exchange_position config w = Ok a.
Proof.
  unfold get_exchange_position.
  destruct (get_exchange_position_try config w) as [[a|]|e]; eauto.
Qed.

Lemma get_exchange_position_zero config w :
  lookup_fails config w -> get_exchange_position config w = Ok 0.
Proof.
  intros Hfail. unfold get_exchange_position, get_exchange_position_try.
  destruct Hfail as [e Hc | c Hc Hg Hp | c f e Hc Hg Hf
                    | c e Hc Hg Hp | c Hc Hg Hp].
  - rewrite Hc. reflexivity.
  - rewrite Hc. simpl. rewrite Hg, Hp. reflexivity.
  - rewrite Hc. simpl. rewrite Hg. simpl. rewrite Hf. reflexivity.
  - rewrite Hc. simpl.
    destruct Hg as [Hg | [f [Hg Hf]]]; rewrite Hg; simpl;
      try rewrite Hf; simpl; rewrite Hp; reflexivity.
  - rewrite Hc. simpl.
    assert (Hfall :
      match _perpetual_trading c with
      | Some items =>
          rbind items (fun kvs =>
            Ok (option_map (fun kv : string * Position => amount (snd kv))
                  (find (fun kv => str_in (trading_pair config) (fst kv)) kvs)))
      | None => Ok None
      end = Ok None).
    { destruct Hp as [Hp | [kvs [Hp Hno]]]; rewrite Hp; trivial.
      simpl. now rewrite (find_none_option_map config kvs Hno). }
    destruct Hg as [Hg | [f [Hg Hf]]]; rewrite Hg; simpl;
      try rewrite Hf; simpl; rewrite Hfall; reflexivity.
Qed.

(** C5: [get_exchange_position] never raises, and on every failure of the
    lookup (no connector, no position interface, a raising call, nothing
    found) it returns exactly zero. *)
Theorem get_exchange_position_safe config w :
  (exists a, get_exchange_position config w = Ok a) /\
  (lookup_fails config w -> get_exchange_position config w = Ok 0).
Proof.
  split.
  - apply get_exchange_position_returns.
  - apply get_exchange_position_zero.
Qed.

(** ** The decision tick *)

Lemma mid_price_accepted (m : Decimal) : 0 < m -> mid_price_rejected (Some m) = false.
Proof.
  intros Hm. unfold mid_price_rejected, truthy.
  rewrite negb_involutive.
  destruct (Qeq_bool m 0) eqn:E.
  - apply Qeq_bool_iff in E. rewrite E in Hm. discriminate.
  - simpl. destruct (Qle_bool m 0) eqn:L; trivial.
    apply Qle_bool_iff in L. exfalso. apply (Qlt_not_le _ _ Hm L).
Qed.

Lemma spread_price_returns config w sd m :
  mid_fallback w = Ok (Some m) -> exists px, spread_price config w sd = Ok px.
Proof. intros H. unfold spread_price. rewrite H. simpl. eauto. Qed.

Lemma calculate_order_price_returns config w sd m :
  mid_fallback w = Ok (Some m) ->
  exists px, calculate_order_price config w sd = Ok px.
Proof.
  intros H. unfold calculate_order_price.
  destruct (spread_price_returns config w sd m H) as [px Hpx].
  destruct (use_orderbook_prices config); eauto.
  destruct (get_crossing_price config w sd) as [p|]; eauto.
  destruct (truthy p); eauto.
Qed.

(** The tick once the monitor is silent, the gate is open and the mid-price
    read is accepted: what is left is the read of the position. *)
Lemma tick_reaches_position config w s m :
  fst (check_stale_executors config w s) = Ok [] ->
  should_place_order config w s = (Ok true, s) ->
  mid_gate w = Ok (Some m) -> 0 < m ->
  forall k : M (list ExecutorAction),
  (stale_actions <- check_stale_executors config w ;;
   match stale_actions with
   | _ :: _ => ret stale_actions
   | [] =>
       ok <- should_place_order config w ;;
       if negb ok then ret []
       else
         mid_price <- lift (mid_gate w) ;;
         if mid_price_rejected mid_price then ret [] else k
   end)%engine s = k s.
Proof.
  intros Hstale Hgate Hmid Hm k.
  unfold bind, lift. rewrite (no_stale_nil _ _ _ Hstale), Hgate. simpl.
  rewrite Hmid. now rewrite (mid_price_accepted m Hm).
Qed.

(** C2: with the monitor silent, the gate open, a valid mid-price and a
    non-zero position, the tick returns exactly one CLOSE order: BUY for a
    negative position and SELL for a positive one, of amount [abs(position)];
    [_last_open_side] and [_completed_roundtrips] keep their values. *)
Theorem close_when_positioned config w s m position :
  fst (check_stale_executors config w s) = Ok [] ->
  should_place_order config w s = (Ok true, s) ->
  mid_gate w = Ok (Some m) -> mid_fallback w = Ok (Some m) -> 0 < m ->
  get_exchange_position config w = Ok position -> ~ position == 0 ->
  exists c s',
    determine_executor_actions config w s
      = (Ok [CreateExecutorAction (id config) c], s') /\
    position_action c = CLOSE /\
    (position < 0 -> side c = BUY) /\
    (0 < position -> side c = SELL) /\
    oc_amount c = Qabs position /\
    _last_open_side s' = _last_open_side s /\
    _completed_roundtrips s' = _completed_roundtrips s.
Proof.
  intros Hstale Hgate Hmid Hfb Hm Hpos Hnz.
  unfold determine_executor_actions.
  rewrite (tick_reaches_position config w s m Hstale Hgate Hmid Hm).
  unfold bind at 1, lift. rewrite Hpos.
  destruct (Qeq_bool position 0) eqn:E.
  { apply Qeq_bool_iff in E. contradiction. }
  set (sd := if Qlt_bool position 0 then BUY else SELL).
  destruct (calculate_order_price_returns config w sd m Hfb) as [px Hpx].
  unfold bind at 1, lift. rewrite Hpx.
  unfold build_order. unfold_engine. simpl.
  do 2 eexists. split; [reflexivity|]. simpl.
  repeat split; trivial.
  - intros Hneg. subst sd. unfold Qlt_bool.
    destruct (Qle_bool 0 position) eqn:L; trivial.
    apply Qle_bool_iff in L. exfalso. apply (Qlt_not_le _ _ Hneg L).
  - intros Hgt. subst sd. unfold Qlt_bool.
    destruct (Qle_bool 0 position) eqn:L; trivial.
    exfalso. assert (Hle : 0 <= position) by now apply Qlt_le_weak.
    apply Qle_bool_iff in Hle. congruence.
Qed.

(** C1, amended: with the monitor silent, the gate open, a valid mid-price,
    a zero position, [_last_open_side] set and a price selector that does
    not return zero, the tick returns exactly one OPEN order on the side
    opposite to [_last_open_side], of amount size / price;
    [_completed_roundtrips] grows by one and [_last_open_side] becomes the
    chosen side. *)
Theorem open_reverses_last_side config w s m position last :
  fst (check_stale_executors config w s) = Ok [] ->
  should_place_order config w s = (Ok true, s) ->
  mid_gate w = Ok (Some m) -> mid_fallback w = Ok (Some m) -> 0 < m ->
  get_exchange_position config w = Ok position -> position == 0 ->
  _last_open_side s = Some last ->
  (forall px, calculate_order_price config w (opposite last) = Ok px -> ~ px == 0) ->
  exists c s',
    determine_executor_actions config w s
      = (Ok [CreateExecutorAction (id config) c], s') /\
    position_action c = OPEN /\
    side c = opposite last /\
    oc_amount c = generate_random_size_quote config w / price c /\
    _completed_roundtrips s' = S (_completed_roundtrips s) /\
    _last_open_side s' = Some (side c).
Proof.
  intros Hstale Hgate Hmid Hfb Hm Hpos Hz Hlast Hnz.
  unfold determine_executor_actions.
  rewrite (tick_reaches_position config w s m Hstale Hgate Hmid Hm).
  unfold bind at 1, lift. rewrite Hpos.
  apply Qeq_bool_iff in Hz. rewrite Hz.
  destruct (calculate_order_price_returns config w (opposite last) m Hfb)
    as [px Hpx].
  specialize (Hnz px Hpx).
  unfold build_order, decimal_div. unfold_engine. rewrite Hlast, Hpx.
  destruct (Qeq_bool px 0) eqn:E.
  { apply Qeq_bool_iff in E. contradiction. }
  simpl. do 2 eexists. split; [reflexivity|]. simpl. repeat split.
Qed.

(** ** The price selector *)

Lemma slice_to_depth config (entries : list OrderBookRow) :
  (1 <= max_orderbook_depth config)%Z ->
  slice_to entries (Z.min (max_orderbook_depth config) (Z.of_nat (length entries)))
  = firstn (sample_depth config entries) entries.
Proof.
  intros Hd. unfold slice_to, sample_depth.
  destruct (0 <=? Z.min (max_orderbook_depth config) (Z.of_nat (length entries)))%Z eqn:E.
  - f_equal. lia.
  - apply Z.leb_gt in E. lia.
Qed.

Lemma sample_depth_pos config (entries : list OrderBookRow) :
  (1 <= max_orderbook_depth config)%Z -> entries <> [] ->
  (0 < sample_depth config entries <= length entries)%nat.
Proof.
  intros Hd Hne. unfold sample_depth.
  destruct entries; [contradiction|]. simpl length. lia.
Qed.

(** What [get_crossing_price] samples from a non-empty side. *)
Lemma get_crossing_price_samples config w sd ob entries :
  (1 <= max_orderbook_depth config)%Z ->
  get_order_book w = Ok ob -> crossing_entries ob sd = Ok entries ->
  entries <> [] ->
  exists row,
    nth_error entries (rand_entry w mod sample_depth config entries) = Some row /\
    In row (firstn (sample_depth config entries) entries) /\
    get_crossing_price config w sd = Some (row_price row).
Proof.
  intros Hd Hob Hen Hne.
  destruct (sample_depth_pos config entries Hd Hne) as [Hpos Hle].
  assert (Hlen : length (firstn (sample_depth config entries) entries)
                 = sample_depth config entries)
    by (apply firstn_length_le; lia).
  assert (Hlt : (rand_entry w mod sample_depth config entries
                 < sample_depth config entries)%nat)
    by (apply Nat.mod_upper_bound; lia).
  destruct (nth_error (firstn (sample_depth config entries) entries)
              (rand_entry w mod sample_depth config entries)) as [row|] eqn:Hnth.
  2:{ apply nth_error_None in Hnth. lia. }
  exists row. split; [|split].
  - rewrite nth_error_firstn in Hnth.
    destruct (Nat.ltb_spec (rand_entry w mod sample_depth config entries)
                (sample_depth config entries)); [assumption | lia].
  - eapply nth_error_In; eauto.
  - unfold get_crossing_price, get_crossing_price_try.
    rewrite Hob. simpl. rewrite Hen. simpl.
    destruct entries as [|e0 rest]; [contradiction|].
    rewrite (slice_to_depth config (e0 :: rest) Hd).
    unfold choice. rewrite Hlen, Hnth. reflexivity.
Qed.

(** When [get_crossing_price] gives nothing. *)
Lemma get_crossing_price_none config w sd :
  ((exists e, get_order_book w = Raise e) \/
   (exists ob e, get_order_book w = Ok ob /\ crossing_entries ob sd = Raise e) \/
   (exists ob, get_order_book w = Ok ob /\ crossing_entries ob sd = Ok [])) ->
  get_crossing_price config w sd = None.
Proof.
  unfold get_crossing_price, get_crossing_price_try.
  intros [[e H] | [[ob [e [H1 H2]]] | [ob [H1 H2]]]].
  - now rewrite H.
  - rewrite H1. simpl. now rewrite H2.
  - rewrite H1. simpl. now rewrite H2.
Qed.

(** C7, amended: with [max_orderbook_depth >= 1], book pricing enabled, a
    successful lookup and a non-empty crossing side, the selector samples the
    entry of index [draw mod N] among the first
    [N = min(max_orderbook_depth, len(entries))] entries and returns its price
    when that price is not zero; when it is zero, or pricing from the book is
    disabled, or the lookup raises, or the side is empty, the selector
    evaluates the mid-price formula, which for a mid-price read [m] is
    [m * (1 + spread)] for BUY and [m * (1 - spread)] for SELL with
    [spread = spread_bps / 10000]. *)
Theorem calculate_order_price_cases config w sd :
  (1 <= max_orderbook_depth config)%Z ->
  (forall ob entries,
     use_orderbook_prices config = true ->
     get_order_book w = Ok ob -> crossing_entries ob sd = Ok entries ->
     entries <> [] ->
     let N := Nat.min (Z.to_nat (max_orderbook_depth config)) (length entries) in
     exists row,
       nth_error entries (rand_entry w mod N) = Some row /\
       (rand_entry w mod N < N)%nat /\
       In row (firstn N entries) /\
       (~ row_price row == 0 ->
          calculate_order_price config w sd = Ok (row_price row)) /\
       (row_price row == 0 ->
          calculate_order_price config w sd = spread_price config w sd)) /\
  (use_orderbook_prices config = false \/
   (exists e, get_order_book w = Raise e) \/
   (exists ob e, get_order_book w = Ok ob /\ crossing_entries ob sd = Raise e) \/
   (exists ob, get_order_book w = Ok ob /\ crossing_entries ob sd = Ok []) ->
   calculate_order_price config w sd = spread_price config w sd) /\
  (forall m, mid_fallback w = Ok (Some m) ->
     spread_price config w sd
       = Ok (match sd with
             | BUY => m * (1 + spread_bps config / 10000)
             | SELL => m * (1 - spread_bps config / 10000)
             end)).
Proof.
  intros Hd. split; [|split].
  - intros ob entries Huse Hob Hen Hne N.
    destruct (get_crossing_price_samples config w sd ob entries Hd Hob Hen Hne)
      as [row [Hnth [Hin Hcp]]].
    destruct (sample_depth_pos config entries Hd Hne) as [Hpos _].
    exists row. fold (sample_depth config entries) in N. subst N.
    split; [assumption|]. split; [apply Nat.mod_upper_bound; lia|].
    split; [assumption|].
    unfold calculate_order_price. rewrite Huse, Hcp. unfold truthy. split.
    + intros Hnz. destruct (Qeq_bool (row_price row) 0) eqn:E; trivial.
      apply Qeq_bool_iff in E. contradiction.
    + intros Hz. apply Qeq_bool_iff in Hz. unfold Decimal_of_str. now rewrite Hz.
  - intros [Hoff | Hnone]; unfold calculate_order_price.
    + now rewrite Hoff.
    + rewrite (get_crossing_price_none config w sd Hnone).
      now destruct (use_orderbook_prices config).
  - intros m Hm. unfold spread_price. rewrite Hm. reflexivity.
Qed.

(** C10: when [get_crossing_price] returns a price equal to zero,
    [calculate_order_price] evaluates the mid-price formula instead; hence a
    zero returned by [calculate_order_price] is never the zero of the book. *)
Theorem zero_book_price_falls_back config w sd p :
  use_orderbook_prices config = true ->
  get_crossing_price config w sd = Some p -> p == 0 ->
  calculate_order_price config w sd = spread_price config w sd /\
  (forall px, calculate_order_price config w sd = Ok px ->
     spread_price config w sd = Ok px).
Proof.
  intros Huse Hcp Hz.
  assert (E : calculate_order_price config w sd = spread_price config w sd).
  { unfold calculate_order_price, truthy. rewrite Huse, Hcp.
    apply Qeq_bool_iff in Hz. now rewrite Hz. }
  split; [exact E|]. intros px Hpx. now rewrite <- E.
Qed.

(** ** The amount of an order *)

(** Where the amount of an emitted order comes from. *)
Lemma order_amount_source config w s actions s' :
  determine_executor_actions config w s = (Ok actions, s') ->
  forall cid c, In (CreateExecutorAction cid c) actions ->
    (position_action c = OPEN ->
       oc_amount c = generate_random_size_quote config w / price c) /\
    (position_action c = CLOSE ->
       exists position,
         get_exchange_position config w = Ok position /\
         oc_amount c = Qabs position).
Proof.
  unfold determine_executor_actions, bind at 1.
  rewrite check_stale_executors_eq.
  destruct (map (cancel_of config) (stale_executors config w)) as [|a l] eqn:Hc.
  2:{ unfold ret. intros H cid c Hin. injection H as <- _.
      rewrite <- Hc in Hin. apply cancel_not_create in Hin. discriminate. }
  unfold should_place_order, build_order, decimal_div. unfold_engine.
  match goal with |- context [negb ?b] => destruct b end; simpl.
  2:{ intros H cid c Hin. injection H as <- _. destruct Hin. }
  destruct (mid_gate w) as [r|e]; [|discriminate].
  destruct (mid_price_rejected r).
  { intros H cid c Hin. injection H as <- _. destruct Hin. }
  destruct (get_exchange_position config w) as [position|e] eqn:Hpos;
    [|discriminate].
  destruct (Qeq_bool position 0).
  - simpl. destruct (_last_open_side s) as [last|].
    + destruct (calculate_order_price config w (opposite last)) as [px|e];
        [|discriminate].
      destruct (Qeq_bool px 0).
      { destruct (Qeq_bool (generate_random_size_quote config w) 0); discriminate. }
      intros H cid c Hin. injection H as <- _.
      destruct Hin as [Hin | []]. injection Hin as _ <-. simpl.
      split; [reflexivity | discriminate].
    + destruct (choice [BUY; SELL] (rand_side w)) as [sd|e]; [|discriminate].
      destruct (calculate_order_price config w sd) as [px|e]; [|discriminate].
      destruct (Qeq_bool px 0).
      { destruct (Qeq_bool (generate_random_size_quote config w) 0); discriminate. }
      intros H cid c Hin. injection H as <- _.
      destruct Hin as [Hin | []]. injection Hin as _ <-. simpl.
      split; [reflexivity | discriminate].
  - destruct (calculate_order_price config w
                (if Qlt_bool position 0 then BUY else SELL)) as [px|e];
      [|discriminate].
    intros H cid c Hin. injection H as <- _.
    destruct Hin as [Hin | []]. injection Hin as _ <-. simpl.
    split; [discriminate|]. intros _. exists position. now split.
Qed.

(** ** Runs on the concrete ticks *)

(** C1 as stated fails: with book pricing off and [spread_bps = 10000] the
    SELL price is [100 * (1 - 1) = 0]; the division raises after
    [_completed_roundtrips] was incremented, no order is returned and
    [_last_open_side] stays BUY. *)
Lemma open_raises_on_zero_price :
  fst (check_stale_executors full_spread_config flat_world after_buy_state) = Ok [] /\
  should_place_order full_spread_config flat_world after_buy_state
    = (Ok true, after_buy_state) /\
  mid_gate flat_world = Ok (Some 100) /\
  mid_fallback flat_world = Ok (Some 100) /\
  get_exchange_position full_spread_config flat_world = Ok 0 /\
  _last_open_side after_buy_state = Some BUY /\
  calculate_order_price full_spread_config flat_world SELL = Ok (100 * (1 - 10000 / 10000)) /\
  determine_executor_actions full_spread_config flat_world after_buy_state
    = (Raise DivisionByZero,
       {| _last_order_time := 90;
          _last_open_side := Some BUY;
          _completed_roundtrips := 4;
          _replaced_orders := 0 |}) /\
  forall actions s',
    determine_executor_actions full_spread_config flat_world after_buy_state
      <> (Ok actions, s').
Proof.
  repeat split; try reflexivity.
  intros actions s' H. vm_compute in H. discriminate H.
Qed.

Lemma open_reverses_last_side_witness :
  exists c s',
    determine_executor_actions default_config flat_world after_buy_state
      = (Ok [CreateExecutorAction (id default_config) c], s') /\
    position_action c = OPEN /\
    side c = SELL /\
    oc_amount c = generate_random_size_quote default_config flat_world / price c /\
    _completed_roundtrips s' = 4%nat /\
    _last_open_side s' = Some SELL.
Proof.
  destruct (open_reverses_last_side default_config flat_world after_buy_state
              100 0 BUY) as [c [s' [Hrun [Hpa [Hsd [Hamt [Hrt Hlast]]]]]]];
    try reflexivity.
  - intros px Hpx. vm_compute in Hpx. injection Hpx as <-. discriminate.
  - exists c, s'. rewrite Hsd in Hlast. repeat split; assumption.
Defined.

Lemma close_when_positioned_witness :
  exists c s',
    determine_executor_actions default_config short_world initial_state
      = (Ok [CreateExecutorAction (id default_config) c], s') /\
    position_action c = CLOSE /\
    side c = BUY /\
    oc_amount c = Qabs (- (5 # 2)) /\
    _last_open_side s' = None /\
    _completed_roundtrips s' = 0%nat.
Proof.
  destruct (close_when_positioned default_config short_world initial_state
              100 (- (5 # 2))) as [c [s' [Hrun [Hpa [Hneg [_ [Hamt [Hlast Hrt]]]]]]]];
    try reflexivity.
  - discriminate.
  - exists c, s'. repeat split; try assumption. apply Hneg. reflexivity.
Defined.

Lemma no_order_when_gated_witness :
  active_executors busy_world <> [] /\
  determine_executor_actions default_config busy_world initial_state
    = (Ok [], initial_state).
Proof.
  assert (H : active_executors busy_world <> []) by discriminate.
  split; [exact H|].
  apply (no_order_when_gated default_config busy_world initial_state).
  - reflexivity.
  - left. exact H.
Defined.

Lemma check_stale_executors_cancels_witness :
  exists cancels,
    cancels = [StopExecutorAction "activity_simulator_1" "old" true] /\
    check_stale_executors default_config stale_world initial_state
      = (Ok cancels, add_replaced initial_state 1) /\
    determine_executor_actions default_config stale_world initial_state
      = (Ok cancels, add_replaced initial_state 1).
Proof.
  destruct (check_stale_executors_cancels default_config stale_world initial_state)
    as [cancels [Hrun [_ [_ Htick]]]].
  assert (E : cancels = [StopExecutorAction "activity_simulator_1" "old" true]).
  { vm_compute in Hrun. now injection Hrun as <- _. }
  exists cancels. split; [exact E|].
  assert (Hne : cancels <> []) by (rewrite E; discriminate).
  destruct (Htick Hne) as [Hdet _].
  rewrite E in Hrun, Hdet |- *. split; assumption.
Defined.

Lemma check_stale_executors_rerun_witness :
  exists first second s1 s2,
    check_stale_executors default_config stale_world initial_state = (Ok first, s1) /\
    check_stale_executors default_config stale_world s1 = (Ok second, s2) /\
    second = first /\
    forall a, In a second -> In a first.
Proof.
  apply (check_stale_executors_rerun default_config stale_world stale_world
           initial_state); reflexivity.
Defined.

Lemma get_exchange_position_safe_witness :
  lookup_fails default_config connector_down_world /\
  get_exchange_position default_config connector_down_world = Ok 0.
Proof.
  assert (H : lookup_fails default_config connector_down_world).
  { apply connector_unavailable with (e := ExternalError "no connector").
    reflexivity. }
  split; [exact H|].
  apply (proj2 (get_exchange_position_safe default_config connector_down_world)).
  exact H.
Defined.


(** C7 as stated fails: pricing from the book is enabled, the lookup succeeds
    and the ask side is not empty, yet the BUY price is the mid-price formula
    [100 * (1 + 10/10000)], not the price of an ask, because the sampled ask
    is priced zero. *)
Lemma book_price_zero_not_returned :
  use_orderbook_prices default_config = true /\
  get_order_book zero_ask_world = Ok zero_ask_book /\
  crossing_entries zero_ask_book BUY
    = Ok [ {| row_price := 0; row_amount := 7 |} ] /\
  calculate_order_price default_config zero_ask_world BUY
    = Ok (100 * (1 + 10 / 10000)) /\
  forall row px,
    In row [ {| row_price := 0; row_amount := 7 |} ] ->
    calculate_order_price default_config zero_ask_world BUY = Ok px ->
    ~ px == row_price row.
Proof.
  repeat split; try reflexivity.
  intros row px [<- | []] Hpx. vm_compute in Hpx. injection Hpx as <-.
  discriminate.
Qed.

Lemma calculate_order_price_cases_witness :
  calculate_order_price default_config flat_world BUY = Ok (1003 # 10) /\
  In {| row_price := 1003 # 10; row_amount := 9 |}
     (firstn 5 [ {| row_price := 1001 # 10; row_amount := 7 |};
                 {| row_price := 1002 # 10; row_amount := 3 |};
                 {| row_price := 1003 # 10; row_amount := 9 |};
                 {| row_price := 1004 # 10; row_amount := 2 |};
                 {| row_price := 1005 # 10; row_amount := 5 |} ]).
Proof.
  destruct (calculate_order_price_cases default_config flat_world BUY)
    as [Hbook _]; [discriminate|].
  destruct (Hbook five_level_book
              [ {| row_price := 1001 # 10; row_amount := 7 |};
                {| row_price := 1002 # 10; row_amount := 3 |};
                {| row_price := 1003 # 10; row_amount := 9 |};
                {| row_price := 1004 # 10; row_amount := 2 |};
                {| row_price := 1005 # 10; row_amount := 5 |} ])
    as [row [Hnth [_ [Hin [Hret _]]]]];
    try reflexivity; try discriminate.
  vm_compute in Hnth. injection Hnth as <-.
  split; [apply Hret; discriminate | exact Hin].
Defined.

Lemma zero_book_price_falls_back_witness :
  get_crossing_price default_config zero_ask_world BUY = Some 0 /\
  calculate_order_price default_config zero_ask_world BUY
    = spread_price default_config zero_ask_world BUY.
Proof.
  split; [reflexivity|].
  apply (proj1 (zero_book_price_falls_back default_config zero_ask_world BUY 0
                  eq_refl eq_refl (Qeq_refl 0))).
Defined.

(** ** Every tick follows one of the paths *)

Lemma choice_side_value draw :
  choice [BUY; SELL] draw
  = Ok (match (draw mod 2)%nat with O => BUY | _ => SELL end).
Proof.
  assert (Hlt : (draw mod 2 < 2)%nat) by (apply Nat.mod_upper_bound; lia).
  unfold choice. change (length [BUY; SELL]) with 2%nat.
  destruct (draw mod 2)%nat as [|[|n]]; try reflexivity. lia.
Qed.

Lemma should_place_order_cases config w s :
  (should_place_order config w s = (Ok true, s) /\ gate_open config w s) \/
  (should_place_order config w s = (Ok false, s) /\
   (active_executors w <> [] \/
    time_gate w - _last_order_time s < order_interval_seconds config)).
Proof.
  unfold should_place_order, gate_open. unfold_engine.
  destruct (Qle_bool (order_interval_seconds config)
              (time_gate w - _last_order_time s)) eqn:Hint.
  - apply Qle_bool_iff in Hint.
    destruct (active_executors w) as [|e l]; simpl.
    + left. repeat split; trivial.
    + right. split; trivial. left. discriminate.
  - right. split; trivial. right.
    apply Qnot_le_lt. intros H. apply Qle_bool_iff in H. congruence.
Qed.

Lemma mid_price_rejected_false r :
  mid_price_rejected r = false -> exists m : Decimal, r = Some m /\ 0 < m.
Proof.
  destruct r as [m|]; [|discriminate]. simpl. unfold truthy.
  rewrite negb_involutive. intros H. apply orb_false_iff in H.
  destruct H as [_ H]. exists m. split; trivial.
  apply Qnot_le_lt. intros L. apply Qle_bool_iff in L. congruence.
Qed.

(** The tick as one nested case analysis. *)
Lemma determine_executor_actions_eq config w s :
  determine_executor_actions config w s =
  match stale_executors config w with
  | _ :: _ =>
      (Ok (map (cancel_of config) (stale_executors config w)),
       add_replaced s (length (stale_executors config w)))
  | [] =>
      match fst (should_place_order config w s) with
      | Raise e => (Raise e, s)
      | Ok false => (Ok [], s)
      | Ok true =>
          match mid_gate w with
          | Raise e => (Raise e, s)
          | Ok r =>
              if mid_price_rejected r then (Ok [], s)
              else
                match get_exchange_position config w with
                | Raise e => (Raise e, s)
                | Ok position =>
                    if Qeq_bool position 0
                    then
                      match calculate_order_price config w (next_open_side w s) with
                      | Raise e => (Raise e, after_side_choice s)
                      | Ok px =>
                          match decimal_div (generate_random_size_quote config w) px with
                          | Raise e => (Raise e, after_side_choice s)
                          | Ok amt =>
                              (Ok [CreateExecutorAction (id config)
                                     (order_of config w (next_open_side w s) amt px OPEN)],
                               stamped w (opened (next_open_side w s) (after_side_choice s)))
                          end
                      end
                    else
                      match calculate_order_price config w (closing_side position) with
                      | Raise e => (Raise e, s)
                      | Ok px =>
                          (Ok [CreateExecutorAction (id config)
                                 (order_of config w (closing_side position)
                                    (Qabs position) px CLOSE)],
                           stamped w s)
                      end
                end
          end
      end
  end.
Proof.
  unfold determine_executor_actions, bind at 1.
  rewrite check_stale_executors_eq.
  destruct (stale_executors config w) as [|x xs]; [|reflexivity].
  cbn [map length]. rewrite add_replaced_0.
  unfold should_place_order, build_order, next_open_side, after_side_choice,
    closing_side.
  unfold_engine. cbn [fst].
  destruct (Qle_bool (order_interval_seconds config)
              (time_gate w - _last_order_time s) &&
            (length (active_executors w) =? 0)%nat); cbn [negb]; [|reflexivity].
  destruct (mid_gate w) as [r|e]; [|reflexivity].
  destruct (mid_price_rejected r); [reflexivity|].
  destruct (get_exchange_position config w) as [position|e]; [|reflexivity].
  destruct (Qeq_bool position 0).
  - destruct (_last_open_side s) as [last|].
    + destruct (calculate_order_price config w (opposite last)) as [px|e];
        [|reflexivity].
      destruct (decimal_div (generate_random_size_quote config w) px);
        reflexivity.
    + rewrite choice_side_value.
      destruct (calculate_order_price config w
                  (match (rand_side w mod 2)%nat with O => BUY | _ => SELL end))
        as [px|e]; [|reflexivity].
      destruct (decimal_div (generate_random_size_quote config w) px);
        reflexivity.
  - destruct (calculate_order_price config w
                (if Qlt_bool position 0 then BUY else SELL)) as [px|e];
      reflexivity.
Qed.

Lemma tick_outcome_complete config w s :
  tick_outcome config w s
    (fst (determine_executor_actions config w s))
    (snd (determine_executor_actions config w s)).
Proof.
  rewrite determine_executor_actions_eq.
  destruct (stale_executors config w) as [|x xs] eqn:Hst.
  2:{ rewrite <- Hst. apply out_cancel. rewrite Hst. discriminate. }
  destruct (should_place_order_cases config w s) as [[Hg Hopen] | [Hg Hclosed]];
    rewrite Hg; cbn [fst].
  2:{ now apply out_gated. }
  destruct (mid_gate w) as [r|e] eqn:Hmid.
  2:{ now apply out_feed_raises. }
  destruct (mid_price_rejected r) eqn:Hrej.
  { now apply out_no_mid_price with (r := r). }
  destruct (mid_price_rejected_false r Hrej) as [m [-> Hm]].
  destruct (get_exchange_position_returns config w) as [position Hpos].
  rewrite Hpos.
  destruct (Qeq_bool position 0) eqn:Hz.
  - apply Qeq_bool_iff in Hz.
    destruct (calculate_order_price config w (next_open_side w s)) as [px|e] eqn:Hpx.
    2:{ now apply out_open_price_raises with (m := m) (position := position). }
    destruct (Qeq_bool px 0) eqn:Hpz.
    + destruct (decimal_div (generate_random_size_quote config w) px) as [a|e] eqn:Hdiv.
      { unfold decimal_div in Hdiv. rewrite Hpz in Hdiv.
        destruct (Qeq_bool (generate_random_size_quote config w) 0); discriminate. }
      apply Qeq_bool_iff in Hpz.
      now apply out_open_division_raises with (m := m) (position := position) (px := px).
    + assert (Hnz : ~ px == 0).
      { intros H. apply Qeq_bool_iff in H. congruence. }
      unfold decimal_div. rewrite Hpz.
      now apply out_open with (m := m) (position := position).
  - assert (Hnz : ~ position == 0).
    { intros H. apply Qeq_bool_iff in H. congruence. }
    destruct (calculate_order_price config w (closing_side position)) as [px|e] eqn:Hpx.
    2:{ now apply out_close_price_raises with (m := m) (position := position). }
    now apply out_close with (m := m).
Qed.

Lemma tick_outcome_of_run config w s r s' :
  determine_executor_actions config w s = (r, s') -> tick_outcome config w s r s'.
Proof.
  intros H. pose proof (tick_outcome_complete config w s) as T.
  now rewrite H in T.
Qed.

(** ** What a tick hands out *)

(** X1: a tick that returns hands out either cancel actions only (possibly
    none) or exactly one order; cancels and orders are never mixed and two
    orders are never returned together. *)
Theorem tick_output_shape config w s actions s' :
  determine_executor_actions config w s = (Ok actions, s') ->
  (forall a, In a actions -> is_create a = false) \/
  (exists c, actions = [CreateExecutorAction (id config) c]).
Proof.
  intros H. apply tick_outcome_of_run in H.
  inversion H; subst.
  - left. apply cancel_not_create.
  - left. intros a [].
  - left. intros a [].
  - right. eauto.
  - right. eauto.
Qed.

(** X2: an order is handed out only with the monitor silent, no executor
    active, the interval since [_last_order_time] elapsed and a positive
    mid-price read. *)
Theorem order_needs_open_gate config w s actions s' cid c :
  determine_executor_actions config w s = (Ok actions, s') ->
  In (CreateExecutorAction cid c) actions ->
  stale_executors config w = [] /\
  active_executors w = [] /\
  order_interval_seconds config <= time_gate w - _last_order_time s /\
  exists m, mid_gate w = Ok (Some m) /\ 0 < m.
Proof.
  intros H Hin. apply tick_outcome_of_run in H.
  inversion H; subst;
    try (apply cancel_not_create in Hin; discriminate);
    try (destruct Hin; fail);
    match goal with Hg : gate_open _ _ _ |- _ => destruct Hg end;
    repeat split; eauto.
Qed.

(** X3: every order of a tick carries the controller id, the connector, the
    trading pair and the leverage of the configuration, is a LIMIT order,
    is stamped with the tick's last clock read, which is also the new
    [_last_order_time] and the time in its label, and is priced by
    [calculate_order_price] for its own side. *)
Theorem order_fields config w s actions s' cid c :
  determine_executor_actions config w s = (Ok actions, s') ->
  In (CreateExecutorAction cid c) actions ->
  cid = id config /\
  oc_connector_name c = connector_name config /\
  oc_trading_pair c = trading_pair config /\
  oc_leverage c = leverage config /\
  execution_strategy c = LIMIT /\
  timestamp c = time_stamp w /\
  _last_order_time s' = time_stamp w /\
  level_id c = (("sim_" ++ action_name_lower (position_action c))%string, time_stamp w) /\
  calculate_order_price config w (side c) = Ok (price c).
Proof.
  intros H Hin. apply tick_outcome_of_run in H.
  inversion H; subst;
    try (apply cancel_not_create in Hin; discriminate);
    try (destruct Hin; fail);
    destruct Hin as [Hin | []]; injection Hin as <- <-;
    repeat split; assumption.
Qed.

(** X4: a tick that returns without an order (a cancellation, a closed
    gate, no usable mid-price) leaves the engine as it was but for
    [_replaced_orders], which grows by the number of cancellations:
    [_last_order_time], [_last_open_side] and [_completed_roundtrips] keep
    their values. *)
Theorem no_order_tick_keeps_state config w s actions s' :
  determine_executor_actions config w s = (Ok actions, s') ->
  orders_of (Ok actions) = [] ->
  s' = add_replaced s (length (stale_executors config w)) /\
  _last_order_time s' = _last_order_time s /\
  _last_open_side s' = _last_open_side s /\
  _completed_roundtrips s' = _completed_roundtrips s.
Proof.
  intros H Hno. apply tick_outcome_of_run in H.
  inversion H; subst; try discriminate.
  - repeat split.
  - match goal with Hs : stale_executors _ _ = [] |- _ => rewrite Hs end.
    simpl. rewrite add_replaced_0. repeat split.
  - match goal with Hs : stale_executors _ _ = [] |- _ => rewrite Hs end.
    simpl. rewrite add_replaced_0. repeat split.
Qed.

Lemma orders_of_cancels config l :
  orders_of (Ok (map (cancel_of config) l)) = [].
Proof. induction l; simpl; trivial. Qed.

Lemma open_sides_no_order r : orders_of r = [] -> open_sides [r] = [].
Proof.
  intros H. unfold open_sides. cbn [flat_map]. now rewrite H.
Qed.

Lemma after_side_choice_side s :
  _last_open_side (after_side_choice s) = _last_open_side s.
Proof. unfold after_side_choice. destruct (_last_open_side s) eqn:E; simpl; auto. Qed.

Lemma after_side_choice_time s :
  _last_order_time (after_side_choice s) = _last_order_time s.
Proof. unfold after_side_choice. destruct (_last_open_side s); reflexivity. Qed.

(** X5: in a tick that returns, [_last_open_side] moves only when an OPEN
    order is handed out, and then it is that order's side; a CLOSE order, a
    cancellation and a gated tick leave it alone. *)
Theorem last_open_side_only_with_open config w s actions s' :
  determine_executor_actions config w s = (Ok actions, s') ->
  (exists c, actions = [CreateExecutorAction (id config) c] /\
             position_action c = OPEN /\
             _last_open_side s' = Some (side c)) \/
  (open_sides [Ok actions] = [] /\ _last_open_side s' = _last_open_side s).
Proof.
  intros H. apply tick_outcome_of_run in H.
  inversion H; subst.
  - right. split; [|reflexivity].
    apply open_sides_no_order, orders_of_cancels.
  - right. split; reflexivity.
  - right. split; reflexivity.
  - left. eexists. repeat split.
  - right. split; reflexivity.
Qed.

Lemma cancels_not_order config l cid c :
  map (cancel_of config) l = [CreateExecutorAction cid c] -> False.
Proof. destruct l; discriminate. Qed.

(** X6: after a tick that hands out an order, a tick whose gate clock is
    less than [order_interval_seconds] past that order's stamp returns
    without raising and hands out no order. *)
Theorem no_order_within_interval config w1 s c s1 w2 :
  determine_executor_actions config w1 s
    = (Ok [CreateExecutorAction (id config) c], s1) ->
  time_gate w2 - time_stamp w1 < order_interval_seconds config ->
  exists actions s2,
    determine_executor_actions config w2 s1 = (Ok actions, s2) /\
    orders_of (Ok actions) = [] /\
    _last_order_time s2 = time_stamp w1.
Proof.
  intros H1 Hearly.
  assert (Ht : _last_order_time s1 = time_stamp w1).
  { apply tick_outcome_of_run in H1. inversion H1; subst; try reflexivity.
    exfalso. eapply cancels_not_order; eauto. }
  pose proof (tick_outcome_complete config w2 s1) as T.
  destruct (determine_executor_actions config w2 s1) as [r s2]. simpl in T.
  inversion T; subst;
    try (match goal with Hg : gate_open _ _ _ |- _ =>
           destruct Hg as [_ Hg]; rewrite Ht in Hg;
           exfalso; apply (Qlt_not_le _ _ Hearly Hg) end).
  - do 2 eexists. split; [reflexivity|]. split; [apply orders_of_cancels|].
    exact Ht.
  - do 2 eexists. split; [reflexivity|]. split; [reflexivity | exact Ht].
Qed.

(** X7: an OPEN order is handed out only on a zero position; with
    [_last_open_side] set its side is the opposite one and
    [_completed_roundtrips] grows by one, with [_last_open_side] unset the
    counter keeps its value; the price of the order is not zero. *)
Theorem open_order_inversion config w s actions s' cid c :
  determine_executor_actions config w s = (Ok actions, s') ->
  In (CreateExecutorAction cid c) actions ->
  position_action c = OPEN ->
  (exists position, get_exchange_position config w = Ok position /\ position == 0) /\
  (forall last, _last_open_side s = Some last ->
     side c = opposite last /\
     _completed_roundtrips s' = S (_completed_roundtrips s)) /\
  (_last_open_side s = None ->
     _completed_roundtrips s' = _completed_roundtrips s) /\
  ~ price c == 0.
Proof.
  intros H Hin Hopen. apply tick_outcome_of_run in H.
  inversion H; subst;
    try (apply cancel_not_create in Hin; discriminate);
    try (destruct Hin; fail);
    destruct Hin as [Hin | []]; injection Hin as <- <-;
    try discriminate.
  simpl. split; [eauto|]. unfold next_open_side, after_side_choice.
  split; [|split].
  - intros last Hlast. rewrite Hlast. split; reflexivity.
  - intros Hnone. rewrite Hnone. reflexivity.
  - assumption.
Qed.

(** X8: a CLOSE order is handed out only on a non-zero position; it buys
    exactly when the position is negative, its amount is the positive
    [abs(position)], and the tick changes nothing but [_last_order_time]. *)
Theorem close_order_inversion config w s actions s' cid c :
  determine_executor_actions config w s = (Ok actions, s') ->
  In (CreateExecutorAction cid c) actions ->
  position_action c = CLOSE ->
  exists position,
    get_exchange_position config w = Ok position /\
    ~ position == 0 /\
    (side c = BUY <-> position < 0) /\
    (side c = SELL <-> 0 < position) /\
    oc_amount c = Qabs position /\
    0 < oc_amount c /\
    s' = stamped w s.
Proof.
  intros H Hin Hclose. apply tick_outcome_of_run in H.
  inversion H; subst;
    try (apply cancel_not_create in Hin; discriminate);
    try (destruct Hin; fail);
    destruct Hin as [Hin | []]; injection Hin as <- <-;
    try discriminate.
  exists position. simpl. split; [assumption|]. split; [assumption|].
  assert (Hside : (closing_side position = BUY <-> position < 0) /\
                  (closing_side position = SELL <-> 0 < position)).
  { unfold closing_side, Qlt_bool.
    destruct (Qle_bool 0 position) eqn:L; simpl.
    - apply Qle_bool_iff in L. split; split; try discriminate.
      + intros Hneg. exfalso. apply (Qlt_not_le _ _ Hneg L).
      + intros _. apply Qle_lteq in L. destruct L as [L | L]; trivial.
        exfalso. match goal with Hn : ~ position == 0 |- _ => apply Hn end.
        now symmetry.
      + reflexivity.
    - assert (Hneg : position < 0).
      { apply Qnot_le_lt. intros L'. apply Qle_bool_iff in L'. congruence. }
      split; split; trivial; try discriminate.
      intros Hpos. exfalso. apply (Qlt_irrefl 0).
      now apply Qlt_trans with position. }
  destruct Hside as [Hb Hs].
  split; [exact Hb|]. split; [exact Hs|]. split; [reflexivity|].
  split; [|reflexivity].
  destruct (Qlt_le_dec position 0) as [Hneg | Hnn].
  - rewrite (Qabs_neg position (Qlt_le_weak _ _ Hneg)).
    apply Qopp_lt_compat in Hneg. exact Hneg.
  - rewrite (Qabs_pos position Hnn).
    apply Qle_lteq in Hnn. destruct Hnn as [Hlt | Heq]; trivial.
    exfalso. match goal with Hn : ~ position == 0 |- _ => apply Hn end.
    now symmetry.
Qed.

(** X9: the first OPEN.  With the monitor silent, the gate open, a valid
    mid-price, a zero position, [_last_open_side] unset and a selector price
    that is not zero, the tick hands out one OPEN order whose side is the
    element of [[BUY, SELL]] picked by the random draw; no round trip is
    counted and [_last_open_side] becomes that side. *)
Theorem open_cold_start config w s m position :
  fst (check_stale_executors config w s) = Ok [] ->
  should_place_order config w s = (Ok true, s) ->
  mid_gate w = Ok (Some m) -> mid_fallback w = Ok (Some m) -> 0 < m ->
  get_exchange_position config w = Ok position -> position == 0 ->
  _last_open_side s = None ->
  (forall sd px, calculate_order_price config w sd = Ok px -> ~ px == 0) ->
  exists c s',
    determine_executor_actions config w s
      = (Ok [CreateExecutorAction (id config) c], s') /\
    position_action c = OPEN /\
    choice [BUY; SELL] (rand_side w) = Ok (side c) /\
    oc_amount c = generate_random_size_quote config w / price c /\
    _completed_roundtrips s' = _completed_roundtrips s /\
    _last_open_side s' = Some (side c).
Proof.
  intros Hstale Hgate Hmid Hfb Hm Hpos Hz Hlast Hnz.
  rewrite determine_executor_actions_eq.
  rewrite check_stale_executors_eq in Hstale. simpl in Hstale.
  injection Hstale as Hstale. apply map_eq_nil in Hstale. rewrite Hstale.
  rewrite Hgate, Hmid. cbn [fst]. rewrite (mid_price_accepted m Hm), Hpos.
  apply Qeq_bool_iff in Hz. rewrite Hz.
  destruct (calculate_order_price_returns config w (next_open_side w s) m Hfb)
    as [px Hpx].
  rewrite Hpx. unfold decimal_div.
  destruct (Qeq_bool px 0) eqn:E.
  { apply Qeq_bool_iff in E. exfalso. exact (Hnz _ _ Hpx E). }
  do 2 eexists. split; [reflexivity|]. simpl.
  unfold next_open_side, after_side_choice. rewrite Hlast.
  repeat split. apply choice_side_value.
Qed.

(** ** Runs of ticks *)

Lemma tick_counters config w s :
  (_completed_roundtrips s
     <= _completed_roundtrips (snd (determine_executor_actions config w s))
     <= S (_completed_roundtrips s))%nat /\
  _replaced_orders (snd (determine_executor_actions config w s))
    = (length (stale_executors config w) + _replaced_orders s)%nat.
Proof.
  pose proof (tick_outcome_complete config w s) as T.
  destruct (determine_executor_actions config w s) as [r s']. simpl in *.
  inversion T; subst; simpl;
    try match goal with Hs : stale_executors _ _ = [] |- _ => rewrite Hs end;
    simpl; unfold after_side_choice;
    try destruct (_last_open_side s); simpl; lia.
Qed.

(** The cancellations a run counts: the stale executors of every tick. *)
Lemma run_ticks_cons config w ws s :
  run_ticks config (w :: ws) s
  = (fst (determine_executor_actions config w s)
       :: fst (run_ticks config ws (snd (determine_executor_actions config w s))),
     snd (run_ticks config ws (snd (determine_executor_actions config w s)))).
Proof.
  simpl. destruct (determine_executor_actions config w s) as [r s1]. simpl.
  destruct (run_ticks config ws s1). reflexivity.
Qed.

(** X11: over any run of ticks, raising ticks included, both counters never
    decrease: [_completed_roundtrips] grows by at most one per tick and
    [_replaced_orders] grows by exactly the number of stale active executors
    met by each tick. *)
Theorem run_counters config ws : forall s,
  (_completed_roundtrips s
     <= _completed_roundtrips (snd (run_ticks config ws s))
     <= _completed_roundtrips s + length ws)%nat /\
  _replaced_orders (snd (run_ticks config ws s))
    = (list_sum (map (fun w => length (stale_executors config w)) ws)
       + _replaced_orders s)%nat.
Proof.
  induction ws as [|w ws IH]; intros s.
  - simpl. lia.
  - rewrite run_ticks_cons. cbn [snd map length].
    change (list_sum (length (stale_executors config w)
              :: map (fun w0 => length (stale_executors config w0)) ws))
      with (length (stale_executors config w)
            + list_sum (map (fun w0 => length (stale_executors config w0)) ws))%nat.
    destruct (tick_counters config w s) as [Hc Hr].
    destruct (IH (snd (determine_executor_actions config w s))) as [IHc IHr].
    rewrite IHr, Hr. lia.
Qed.

Lemma open_sides_cons r rs : open_sides (r :: rs) = open_sides [r] ++ open_sides rs.
Proof.
  unfold open_sides. cbn [flat_map]. rewrite app_nil_r.
  now rewrite filter_app, map_app.
Qed.

(** What one tick does to the sequence of OPEN sides. *)
Lemma tick_open_step config w s :
  let r := fst (determine_executor_actions config w s) in
  let s' := snd (determine_executor_actions config w s) in
  (open_sides [r] = [] /\ _last_open_side s' = _last_open_side s /\
   (_completed_roundtrips s <= _completed_roundtrips s')%nat) \/
  (exists sd, open_sides [r] = [sd] /\ _last_open_side s' = Some sd /\
     match _last_open_side s with
     | Some last => sd = opposite last /\
                    _completed_roundtrips s' = S (_completed_roundtrips s)
     | None => _completed_roundtrips s' = _completed_roundtrips s
     end).
Proof.
  pose proof (tick_outcome_complete config w s) as T.
  destruct (determine_executor_actions config w s) as [r s']. simpl in *.
  inversion T; subst;
    try (left; repeat split; simpl; trivial;
         try apply after_side_choice_side;
         unfold after_side_choice; destruct (_last_open_side s); simpl; lia).
  - left. split; [apply open_sides_no_order, orders_of_cancels|].
    split; [reflexivity | simpl; lia].
  - right. exists (next_open_side w s). split; [reflexivity|].
    split; [reflexivity|]. simpl.
    unfold next_open_side, after_side_choice.
    destruct (_last_open_side s); simpl; auto.
Qed.

(** X12: over any run of ticks that all return, the OPEN orders alternate:
    each OPEN is on the side opposite to the OPEN before it, whatever
    cancellations, CLOSE orders and gated ticks lie between them, and the
    first one is opposite to [_last_open_side] when the run starts with it
    set. *)
Theorem run_opens_alternate config ws : forall s,
  all_returned (fst (run_ticks config ws s)) ->
  alternates (_last_open_side s) (open_sides (fst (run_ticks config ws s))).
Proof.
  induction ws as [|w ws IH]; intros s Hret.
  - exact I.
  - rewrite run_ticks_cons in Hret |- *. cbn [fst] in Hret |- *.
    apply Forall_inv_tail in Hret.
    rewrite open_sides_cons.
    specialize (IH (snd (determine_executor_actions config w s)) Hret).
    destruct (tick_open_step config w s) as [[Hno [Hlast _]] | [sd [Hone [Hlast Hsd]]]].
    + rewrite Hno. simpl. now rewrite <- Hlast.
    + rewrite Hone. simpl. rewrite Hlast in IH. split; [|exact IH].
      destruct (_last_open_side s); [apply Hsd | exact I].
Qed.

(** X13: over any run of ticks, the number of OPEN orders handed out is at
    most the number of round trips counted during the run, plus one when the
    run starts with [_last_open_side] unset. *)
Theorem run_opens_counted config ws : forall s,
  (length (open_sides (fst (run_ticks config ws s))) + _completed_roundtrips s
   <= _completed_roundtrips (snd (run_ticks config ws s))
      + match _last_open_side s with None => 1 | Some _ => 0 end)%nat.
Proof.
  induction ws as [|w ws IH]; intros s.
  - simpl. lia.
  - rewrite run_ticks_cons. cbn [fst snd]. rewrite open_sides_cons, length_app.
    specialize (IH (snd (determine_executor_actions config w s))).
    destruct (tick_open_step config w s) as [[Hno [Hlast Hrt]] | [sd [Hone [Hlast Hsd]]]].
    + rewrite Hno. rewrite Hlast in IH. simpl length. lia.
    + rewrite Hone. rewrite Hlast in IH. simpl length.
      destruct (_last_open_side s); [destruct Hsd as [_ Hsd]|]; lia.
Qed.

(** ** The position oracle, continued *)

Lemma prefix_spec (a : string) : forall b,
  String.prefix a b = true <-> exists post, b = (a ++ post)%string.
Proof.
  induction a as [|x a IH]; intros b.
  - split; [intros _; exists b; reflexivity | intros _; now destruct b].
  - destruct b as [|y b]; simpl.
    + split; [discriminate | intros [post H]; discriminate].
    + destruct (Ascii.ascii_dec x y) as [-> | Hne].
      * rewrite IH. split; intros [post H]; exists post.
        -- now rewrite H.
        -- now injection H.
      * split; [discriminate|]. intros [post H]. congruence.
Qed.

Lemma str_in_eq needle hay :
  str_in needle hay =
  if String.prefix needle hay then true
  else match hay with
       | EmptyString => false
       | String _ rest => str_in needle rest
       end.
Proof. destruct hay; reflexivity. Qed.

(** X14: [str_in] is the substring test of Python's [in]: it holds exactly
    when the haystack is some prefix, the needle, and some suffix. *)
Theorem str_in_substring needle : forall hay,
  str_in needle hay = true <->
  exists pre post, hay = (pre ++ needle ++ post)%string.
Proof.
  induction hay as [|y hay IH]; rewrite str_in_eq.
  - destruct (String.prefix needle "") eqn:P.
    + split; [intros _ | reflexivity].
      apply prefix_spec in P. destruct P as [post P].
      exists ""%string, post. exact P.
    + split; [discriminate|]. intros [pre [post H]].
      destruct pre; [|discriminate]. simpl in H.
      assert (T : String.prefix needle "" = true) by (apply prefix_spec; eauto).
      congruence.
  - destruct (String.prefix needle (String y hay)) eqn:P.
    + split; [intros _ | reflexivity].
      apply prefix_spec in P. destruct P as [post P].
      exists ""%string, post. exact P.
    + rewrite IH. split.
      * intros [pre [post H]]. exists (String y pre), post. simpl. now rewrite H.
      * intros [pre [post H]]. destruct pre as [|z pre].
        -- simpl in H.
           assert (T : String.prefix needle (String y hay) = true)
             by (apply prefix_spec; eauto).
           congruence.
        -- simpl in H. injection H as _ H. eauto.
Qed.

(** X15: a non-zero position returned by [get_exchange_position] was
    reported by the connector: by [get_position] for the trading pair, or,
    when that gave nothing, by an entry of [account_positions] whose key
    contains the trading pair. *)
Theorem position_provenance config w a :
  get_exchange_position config w = Ok a -> ~ a == 0 ->
  exists c, get_connector w = Ok c /\
    ((exists f p, get_position c = Some f /\
        f (trading_pair config) = Ok (Some p) /\ amount p = a) \/
     (exists kvs k p,
        (get_position c = None \/
         exists f, get_position c = Some f /\ f (trading_pair config) = Ok None) /\
        _perpetual_trading c = Some (Ok kvs) /\ In (k, p) kvs /\
        str_in (trading_pair config) k = true /\ amount p = a)).
Proof.
  unfold get_exchange_position, get_exchange_position_try.
  intros H Hnz.
  assert (Hzero : forall x : Decimal, Ok x = Ok a -> x = 0 -> False).
  { intros x Hx ->. injection Hx as <-. apply Hnz. reflexivity. }
  destruct (get_connector w) as [c|e]; simpl in H;
    [|exfalso; eapply Hzero; eauto].
  exists c. split; trivial.
  assert (Hfallback :
    (get_position c = None \/
     exists f, get_position c = Some f /\ f (trading_pair config) = Ok None) ->
    match
      match _perpetual_trading c with
      | Some items =>
          rbind items (fun kvs =>
            Ok (option_map (fun kv : string * Position => amount (snd kv))
                  (find (fun kv => str_in (trading_pair config) (fst kv)) kvs)))
      | None => Ok None
      end
    with
    | Ok (Some a0) => Ok a0
    | Ok None => Ok 0
    | Raise _ => Ok 0
    end = Ok a ->
    exists kvs k p,
      (get_position c = None \/
       exists f, get_position c = Some f /\ f (trading_pair config) = Ok None) /\
      _perpetual_trading c = Some (Ok kvs) /\ In (k, p) kvs /\
      str_in (trading_pair config) k = true /\ amount p = a).
  { intros Hg Hres.
    destruct (_perpetual_trading c) as [[kvs|e]|];
      simpl in Hres; try (exfalso; eapply Hzero; eauto; fail).
    destruct (find (fun kv => str_in (trading_pair config) (fst kv)) kvs)
      as [[k p]|] eqn:Hfind; simpl in Hres;
      [|exfalso; eapply Hzero; eauto].
    apply find_some in Hfind. destruct Hfind as [Hin Hk].
    injection Hres as Hres. exists kvs, k, p. repeat split; trivial. }
  destruct (get_position c) as [f|] eqn:Hg; simpl in H.
  - destruct (f (trading_pair config)) as [[p|]|e] eqn:Hf; simpl in H.
    + left. exists f, p. injection H as H. repeat split; trivial.
    + right. apply Hfallback; trivial. right. eauto.
    + exfalso. eapply Hzero; eauto.
  - right. apply Hfallback; trivial. now left.
Qed.

Lemma find_first_match {A} (f : A -> bool) pre x post :
  (forall y, In y pre -> f y = false) -> f x = true ->
  find f (pre ++ x :: post) = Some x.
Proof.
  intros Hpre Hx. induction pre as [|y pre IH]; simpl.
  - now rewrite Hx.
  - rewrite (Hpre y (or_introl eq_refl)). apply IH.
    intros z Hin. apply Hpre. now right.
Qed.

(** X16: when [get_position] is absent or returns [None], the position is
    that of the first entry of [account_positions] whose key contains the
    trading pair. *)
Theorem account_positions_first_match config w c pre k p post :
  get_connector w = Ok c ->
  (get_position c = None \/
   exists f, get_position c = Some f /\ f (trading_pair config) = Ok None) ->
  _perpetual_trading c = Some (Ok (pre ++ (k, p) :: post)) ->
  (forall kv, In kv pre -> str_in (trading_pair config) (fst kv) = false) ->
  str_in (trading_pair config) k = true ->
  get_exchange_position config w = Ok (amount p).
Proof.
  intros Hc Hg Hp Hpre Hk.
  assert (Hfind : find (fun kv : string * Position =>
                          str_in (trading_pair config) (fst kv))
                    (pre ++ (k, p) :: post) = Some (k, p)).
  { now apply find_first_match. }
  unfold get_exchange_position, get_exchange_position_try.
  rewrite Hc. simpl.
  destruct Hg as [Hg | [f [Hg Hf]]]; rewrite Hg; simpl;
    try rewrite Hf; simpl; rewrite Hp; simpl; rewrite Hfind; reflexivity.
Qed.

(** ** The price selector, continued *)

Lemma choice_some {A} (l : list A) draw x :
  choice l draw = Ok x -> exists i, (i < length l)%nat /\ nth_error l i = Some x.
Proof.
  unfold choice.
  destruct (nth_error l (draw mod length l)) as [y|] eqn:E; [|discriminate].
  intros H. injection H as <-. exists (draw mod length l)%nat. split; trivial.
  apply nth_error_Some. congruence.
Qed.

Lemma slice_to_nth {A} (l : list A) stop i x :
  nth_error (slice_to l stop) i = Some x ->
  nth_error l i = Some x /\
  (0 <= stop -> Z.of_nat i < stop)%Z /\
  (stop < 0 -> Z.of_nat i < Z.of_nat (length l) + stop)%Z.
Proof.
  unfold slice_to. destruct (0 <=? stop)%Z eqn:E;
    rewrite nth_error_firstn;
    match goal with |- context [(i <? ?n)%nat] =>
      destruct (Nat.ltb_spec i n) as [Hlt | Hge] end;
    try discriminate; intros H; split; trivial.
  - apply Z.leb_le in E. lia.
  - apply Z.leb_gt in E. lia.
Qed.

Lemma get_crossing_price_some config w sd p :
  get_crossing_price config w sd = Some p ->
  exists ob entries i row,
    get_order_book w = Ok ob /\
    crossing_entries ob sd = Ok entries /\
    nth_error entries i = Some row /\ p = row_price row /\
    (0 <= max_orderbook_depth config -> Z.of_nat i < max_orderbook_depth config)%Z /\
    (max_orderbook_depth config < 0 ->
       Z.of_nat i < Z.of_nat (length entries) + max_orderbook_depth config)%Z.
Proof.
  unfold get_crossing_price, get_crossing_price_try. intros H.
  destruct (get_order_book w) as [ob|e]; [|discriminate]. simpl in H.
  destruct (crossing_entries ob sd) as [entries|e] eqn:He; [|discriminate].
  simpl in H. destruct entries as [|e0 rest] eqn:Hent; [discriminate|].
  rewrite <- Hent in *.
  assert (Hlen : (0 < length entries)%nat) by (rewrite Hent; simpl; lia).
  assert (H' :
    match rbind (choice (slice_to entries
                    (Z.min (max_orderbook_depth config) (Z.of_nat (length entries))))
                    (rand_entry w))
            (fun row => Ok (Some (Decimal_of_str (row_price row)))) with
    | Ok r => r
    | Raise _ => None
    end = Some p).
  { rewrite Hent in H |- *. exact H. }
  clear H.
  destruct (choice (slice_to entries
              (Z.min (max_orderbook_depth config) (Z.of_nat (length entries))))
              (rand_entry w)) as [row|e] eqn:Hch; [|discriminate].
  simpl in H'. injection H' as <-.
  apply choice_some in Hch. destruct Hch as [i [_ Hnth]].
  apply slice_to_nth in Hnth. destruct Hnth as [Hnth [Hpos Hneg]].
  exists ob, entries, i, row. repeat split; trivial; lia.
Qed.

(** X17: whatever [max_orderbook_depth] is, a price returned by
    [get_crossing_price] is the price of an entry of the side the order
    crosses (asks for BUY, bids for SELL); its index is below
    [max_orderbook_depth] when that is not negative, and a negative
    [max_orderbook_depth] keeps the last [-max_orderbook_depth] entries out. *)
Theorem crossing_price_provenance config w sd p :
  get_crossing_price config w sd = Some p ->
  exists ob entries i row,
    get_order_book w = Ok ob /\
    crossing_entries ob sd = Ok entries /\
    nth_error entries i = Some row /\ p = row_price row /\
    (0 <= max_orderbook_depth config -> Z.of_nat i < max_orderbook_depth config)%Z /\
    (max_orderbook_depth config < 0 ->
       Z.of_nat i < Z.of_nat (length entries) + max_orderbook_depth config)%Z.
Proof. apply get_crossing_price_some. Qed.

(** X18: with [max_orderbook_depth] zero, whatever the book, or negative
    with no more than [-max_orderbook_depth] entries on the crossing side,
    the slice is empty: [get_crossing_price] returns [None] and
    [calculate_order_price] is the mid-price formula. *)
Theorem no_depth_no_book_price config w sd :
  (max_orderbook_depth config = 0 \/
   (max_orderbook_depth config < 0 /\
    forall ob entries,
      get_order_book w = Ok ob -> crossing_entries ob sd = Ok entries ->
      Z.of_nat (length entries) + max_orderbook_depth config <= 0))%Z ->
  get_crossing_price config w sd = None /\
  calculate_order_price config w sd = spread_price config w sd.
Proof.
  intros Hd.
  assert (Hnone : get_crossing_price config w sd = None).
  { destruct (get_crossing_price config w sd) as [p|] eqn:E; trivial.
    apply get_crossing_price_some in E.
    destruct E as [ob [entries [i [row [Hob [Hen [_ [_ [Hpos Hneg]]]]]]]]].
    destruct Hd as [Hzero | [Hlt Hshort]].
    - lia.
    - specialize (Hshort ob entries Hob Hen). lia. }
  split; trivial. unfold calculate_order_price. rewrite Hnone.
  now destruct (use_orderbook_prices config).
Qed.

(** X19: [calculate_order_price] raises only from its mid-price branch: the
    read raised, or it returned [None] and the product raises [TypeError];
    a non-zero price sampled from the book is returned without reading the
    mid-price at all. *)
Theorem calculate_order_price_raise_causes config w sd :
  (forall e, calculate_order_price config w sd = Raise e ->
     mid_fallback w = Raise e \/ (mid_fallback w = Ok None /\ e = TypeError)) /\
  (forall p, use_orderbook_prices config = true ->
     get_crossing_price config w sd = Some p -> ~ p == 0 ->
     calculate_order_price config w sd = Ok p).
Proof.
  split.
  - assert (Hsp : forall e, spread_price config w sd = Raise e ->
      mid_fallback w = Raise e \/ (mid_fallback w = Ok None /\ e = TypeError)).
    { unfold spread_price. intros e H.
      destruct (mid_fallback w) as [[m|]|e']; simpl in H.
      - discriminate.
      - injection H as <-. now right.
      - injection H as <-. now left. }
    intros e. unfold calculate_order_price.
    destruct (use_orderbook_prices config); [|apply Hsp].
    destruct (get_crossing_price config w sd) as [p|]; [|apply Hsp].
    destruct (truthy p); [discriminate | apply Hsp].
  - intros p Huse Hcp Hnz. unfold calculate_order_price, truthy.
    rewrite Huse, Hcp.
    destruct (Qeq_bool p 0) eqn:E; trivial.
    apply Qeq_bool_iff in E. contradiction.
Qed.


(** ** The staleness monitor, continued *)

(** X21: staleness is monotone in the clock: an executor that is stale at
    one clock read and is still active at a later one is cancelled there
    too. *)
Theorem stale_stays_stale config w1 w2 s e :
  is_stale config (time_stale w1) e = true ->
  time_stale w1 <= time_stale w2 ->
  In e (executors_info w2) -> is_active e = true ->
  exists cancels s',
    check_stale_executors config w2 s = (Ok cancels, s') /\
    In (StopExecutorAction (id config) (executor_id e) true) cancels.
Proof.
  intros Hst Hle Hin Hact.
  do 2 eexists. split; [apply check_stale_executors_eq|].
  apply (in_map (cancel_of config)). apply filter_In. split.
  - apply filter_In. now split.
  - apply is_stale_iff. apply is_stale_iff in Hst.
    apply Qle_trans with (1 := Hst).
    apply Qplus_le_l with (z := executor_timestamp e).
    unfold float in *. ring_simplify. exact Hle.
Qed.

(** ** The status panel *)

(** X22: the panel's "Next" is the side the next OPEN takes: an OPEN order
    handed out from a state with [_last_open_side] set is on the side named
    by [next_side], and afterwards "Last" names that side. *)
Theorem status_next_side_is_next_open config w s actions s' cid c :
  determine_executor_actions config w s = (Ok actions, s') ->
  In (CreateExecutorAction cid c) actions ->
  position_action c = OPEN ->
  _last_open_side s <> None ->
  status_next_side s = TradeType_name (side c) /\
  status_last s' = TradeType_name (side c).
Proof.
  intros H Hin Hopen Hset. apply tick_outcome_of_run in H.
  inversion H; subst;
    try (apply cancel_not_create in Hin; discriminate);
    try (destruct Hin; fail);
    destruct Hin as [Hin | []]; injection Hin as <- <-;
    try discriminate.
  simpl. unfold status_next_side, status_last, next_open_side. simpl.
  destruct (_last_open_side s) as [[|]|]; try contradiction; split; reflexivity.
Qed.

(** X23: the panel's "State" agrees with what a tick does on the same
    position: FLAT goes with an OPEN order, LONG with a CLOSE that sells,
    SHORT with a CLOSE that buys. *)
Theorem status_state_matches_order config w s actions s' cid c position :
  determine_executor_actions config w s = (Ok actions, s') ->
  In (CreateExecutorAction cid c) actions ->
  get_exchange_position config w = Ok position ->
  (status_state position = "FLAT"%string /\ position_action c = OPEN) \/
  (status_state position = "LONG"%string /\ position_action c = CLOSE /\ side c = SELL) \/
  (status_state position = "SHORT"%string /\ position_action c = CLOSE /\ side c = BUY).
Proof.
  intros H Hin Hpos. apply tick_outcome_of_run in H.
  inversion H; subst;
    try (apply cancel_not_create in Hin; discriminate);
    try (destruct Hin; fail);
    destruct Hin as [Hin | []]; injection Hin as <- <-;
    match goal with Hp : get_exchange_position _ _ = Ok ?q |- _ =>
      rewrite Hp in Hpos; injection Hpos as -> end;
    unfold status_state.
  - left. match goal with Hz : position == 0 |- _ =>
      apply Qeq_bool_iff in Hz; rewrite Hz end. split; reflexivity.
  - right.
    destruct (Qeq_bool position 0) eqn:E.
    { apply Qeq_bool_iff in E. contradiction. }
    simpl. unfold closing_side, Qlt_bool.
    destruct (Qle_bool 0 position) eqn:L1; destruct (Qle_bool position 0) eqn:L2;
      simpl.
    + exfalso. apply Qle_bool_iff in L1. apply Qle_bool_iff in L2.
      match goal with Hn : ~ position == 0 |- _ => apply Hn end.
      now apply Qle_antisym.
    + left. repeat split.
    + right. repeat split.
    + exfalso.
      assert (Hlt : position < 0).
      { apply Qnot_le_lt. intros L. apply Qle_bool_iff in L. congruence. }
      apply Qlt_le_weak in Hlt. apply Qle_bool_iff in Hlt. congruence.
Qed.

(** ** Exceptions of the collaborators *)






(** ** More runs on the concrete ticks *)

Lemma reversing_tick_eq :
  determine_executor_actions default_config flat_world after_buy_state
  = (Ok [CreateExecutorAction (id default_config)
           (order_in default_config flat_world (fst reversing_tick))],
     snd reversing_tick).
Proof. vm_compute. reflexivity. Qed.

Lemma closing_tick_eq :
  determine_executor_actions default_config short_world initial_state
  = (Ok [CreateExecutorAction (id default_config)
           (order_in default_config short_world (fst closing_tick))],
     snd closing_tick).
Proof. vm_compute. reflexivity. Qed.

Lemma tick_output_shape_witness :
  (forall a, In a (actions_of (fst cancelling_tick)) -> is_create a = false) \/
  (exists c, actions_of (fst cancelling_tick)
             = [CreateExecutorAction (id default_config) c]).
Proof.
  apply (tick_output_shape default_config stale_world initial_state
           (actions_of (fst cancelling_tick)) (snd cancelling_tick)).
  reflexivity.
Defined.

Lemma order_needs_open_gate_witness :
  stale_executors default_config flat_world = [] /\
  active_executors flat_world = [] /\
  order_interval_seconds default_config
    <= time_gate flat_world - _last_order_time after_buy_state /\
  exists m, mid_gate flat_world = Ok (Some m) /\ 0 < m.
Proof.
  apply (order_needs_open_gate default_config flat_world after_buy_state
           _ _ (id default_config)
           (order_in default_config flat_world (fst reversing_tick))
           reversing_tick_eq).
  left. reflexivity.
Defined.

Lemma order_fields_witness :
  oc_trading_pair (order_in default_config flat_world (fst reversing_tick))
    = "ENA-USDC"%string /\
  execution_strategy (order_in default_config flat_world (fst reversing_tick)) = LIMIT /\
  timestamp (order_in default_config flat_world (fst reversing_tick)) = 100 /\
  _last_order_time (snd reversing_tick) = 100.
Proof.
  destruct (order_fields default_config flat_world after_buy_state
              _ _ (id default_config)
              (order_in default_config flat_world (fst reversing_tick))
              reversing_tick_eq (or_introl eq_refl))
    as [_ [_ [Hpair [_ [Hlimit [Hts [Hlast _]]]]]]].
  repeat split; assumption.
Defined.

Lemma no_order_tick_keeps_state_witness :
  orders_of (Ok (actions_of (fst cancelling_tick))) = [] /\
  snd cancelling_tick = add_replaced initial_state 1 /\
  _last_order_time (snd cancelling_tick) = _last_order_time initial_state.
Proof.
  split; [reflexivity|].
  destruct (no_order_tick_keeps_state default_config stale_world initial_state
              (actions_of (fst cancelling_tick)) (snd cancelling_tick)
              eq_refl eq_refl) as [Hst [Htime _]].
  split; [exact Hst | exact Htime].
Defined.

Lemma last_open_side_only_with_open_witness :
  (exists c, actions_of (fst closing_tick)
               = [CreateExecutorAction (id default_config) c] /\
             position_action c = OPEN /\
             _last_open_side (snd closing_tick) = Some (side c)) \/
  (open_sides [Ok (actions_of (fst closing_tick))] = [] /\
   _last_open_side (snd closing_tick) = _last_open_side initial_state).
Proof.
  apply (last_open_side_only_with_open default_config short_world initial_state).
  reflexivity.
Defined.

Lemma no_order_within_interval_witness :
  time_gate soon_after_world - time_stamp flat_world
    < order_interval_seconds default_config /\
  exists actions s2,
    determine_executor_actions default_config soon_after_world (snd reversing_tick)
      = (Ok actions, s2) /\
    orders_of (Ok actions) = [] /\
    _last_order_time s2 = time_stamp flat_world.
Proof.
  split; [reflexivity|].
  apply (no_order_within_interval default_config flat_world after_buy_state
           (order_in default_config flat_world (fst reversing_tick))
           (snd reversing_tick) soon_after_world reversing_tick_eq).
  reflexivity.
Defined.

Lemma open_order_inversion_witness :
  side (order_in default_config flat_world (fst reversing_tick)) = SELL /\
  _completed_roundtrips (snd reversing_tick) = 4%nat /\
  ~ price (order_in default_config flat_world (fst reversing_tick)) == 0.
Proof.
  destruct (open_order_inversion default_config flat_world after_buy_state
              _ _ (id default_config)
              (order_in default_config flat_world (fst reversing_tick))
              reversing_tick_eq (or_introl eq_refl) eq_refl)
    as [_ [Hset [_ Hprice]]].
  destruct (Hset BUY eq_refl) as [Hside Hrt].
  repeat split; assumption.
Defined.

Lemma close_order_inversion_witness :
  exists position,
    get_exchange_position default_config short_world = Ok position /\
    side (order_in default_config short_world (fst closing_tick)) = BUY /\
    oc_amount (order_in default_config short_world (fst closing_tick))
      = Qabs position /\
    snd closing_tick = stamped short_world initial_state.
Proof.
  destruct (close_order_inversion default_config short_world initial_state
              _ _ (id default_config)
              (order_in default_config short_world (fst closing_tick))
              closing_tick_eq (or_introl eq_refl) eq_refl)
    as [position [Hpos [_ [Hbuy [_ [Hamt [_ Hst]]]]]]].
  exists position. split; [exact Hpos|]. split; [|split; assumption].
  apply Hbuy. vm_compute in Hpos. injection Hpos as <-. reflexivity.
Defined.

Lemma open_cold_start_witness :
  exists c s',
    cold_tick = (Ok [CreateExecutorAction (id default_config) c], s') /\
    position_action c = OPEN /\
    side c = SELL /\
    _completed_roundtrips s' = 0%nat /\
    _last_open_side s' = Some SELL.
Proof.
  destruct (open_cold_start default_config flat_world initial_state 100 0)
    as [c [s' [Hrun [Hpa [Hch [_ [Hrt Hlast]]]]]]]; try reflexivity.
  - intros sd px Hpx. destruct sd; vm_compute in Hpx; injection Hpx as <-;
      discriminate.
  - assert (Hsd : side c = SELL).
    { vm_compute in Hch. injection Hch as Hch. symmetry. exact Hch. }
    exists c, s'. rewrite Hsd in Hlast. repeat split; assumption.
Defined.

Lemma str_in_substring_witness :
  str_in "ENA-USDC" "ENA-USDCLONG" = true /\
  exists pre post, "ENA-USDCLONG"%string = (pre ++ "ENA-USDC" ++ post)%string.
Proof.
  split; [reflexivity|].
  apply (proj1 (str_in_substring "ENA-USDC" "ENA-USDCLONG")). reflexivity.
Defined.

Lemma position_provenance_witness :
  get_exchange_position default_config fallback_world = Ok 3 /\
  exists c, get_connector fallback_world = Ok c /\
    ((exists f p, get_position c = Some f /\
        f (trading_pair default_config) = Ok (Some p) /\ amount p = 3) \/
     (exists kvs k p,
        (get_position c = None \/
         exists f, get_position c = Some f /\
                   f (trading_pair default_config) = Ok None) /\
        _perpetual_trading c = Some (Ok kvs) /\ In (k, p) kvs /\
        str_in (trading_pair default_config) k = true /\ amount p = 3)).
Proof.
  split; [reflexivity|].
  apply (position_provenance default_config fallback_world 3).
  - reflexivity.
  - discriminate.
Defined.

Lemma account_positions_first_match_witness :
  get_exchange_position default_config fallback_world
  = Ok (amount {| amount := 3 |}).
Proof.
  apply (account_positions_first_match default_config fallback_world
           fallback_connector
           [ ("BTC-USDC"%string, {| amount := 9 |}) ]
           "ENA-USDCLONG"%string {| amount := 3 |}
           [ ("ENA-USDCSHORT"%string, {| amount := - (4) |}) ]).
  - reflexivity.
  - right. eexists. split; reflexivity.
  - reflexivity.
  - intros kv [<- | []]. reflexivity.
  - reflexivity.
Defined.

Lemma crossing_price_provenance_witness :
  get_crossing_price default_config flat_world BUY = Some (1003 # 10) /\
  exists ob entries i row,
    get_order_book flat_world = Ok ob /\
    crossing_entries ob BUY = Ok entries /\
    nth_error entries i = Some row /\ 1003 # 10 = row_price row /\
    (0 <= max_orderbook_depth default_config ->
       Z.of_nat i < max_orderbook_depth default_config)%Z /\
    (max_orderbook_depth default_config < 0 ->
       Z.of_nat i < Z.of_nat (length entries) + max_orderbook_depth default_config)%Z.
Proof.
  split; [reflexivity|].
  apply (crossing_price_provenance default_config flat_world BUY (1003 # 10)).
  reflexivity.
Defined.

Lemma no_depth_no_book_price_witness :
  (get_crossing_price zero_depth_config flat_world BUY = None /\
   calculate_order_price zero_depth_config flat_world BUY
     = spread_price zero_depth_config flat_world BUY) /\
  (get_crossing_price negative_depth_config flat_world BUY = None /\
   calculate_order_price negative_depth_config flat_world BUY
     = spread_price negative_depth_config flat_world BUY).
Proof.
  split.
  - apply (no_depth_no_book_price zero_depth_config flat_world BUY).
    left. reflexivity.
  - apply (no_depth_no_book_price negative_depth_config flat_world BUY).
    right. split; [reflexivity|].
    intros ob entries Hob Hen. injection Hob as <-. injection Hen as <-.
    discriminate.
Defined.

Lemma calculate_order_price_raise_causes_witness :
  calculate_order_price full_spread_config feed_down_world SELL
    = Raise (ExternalError "feed down") /\
  mid_fallback feed_down_world = Raise (ExternalError "feed down") /\
  calculate_order_price default_config feed_down_world SELL = Ok (997 # 10).
Proof.
  destruct (calculate_order_price_raise_causes full_spread_config feed_down_world SELL)
    as [Hraise _].
  destruct (calculate_order_price_raise_causes default_config feed_down_world SELL)
    as [_ Hbook].
  split; [reflexivity|]. split.
  - destruct (Hraise (ExternalError "feed down") eq_refl) as [H | [H _]].
    + exact H.
    + discriminate H.
  - apply Hbook; [reflexivity | reflexivity | discriminate].
Defined.


Lemma stale_stays_stale_witness :
  exists cancels s',
    check_stale_executors default_config later_stale_world initial_state
      = (Ok cancels, s') /\
    In (StopExecutorAction (id default_config) "old" true) cancels.
Proof.
  apply (stale_stays_stale default_config stale_world later_stale_world
           initial_state
           {| executor_id := "old"; executor_timestamp := 90; is_active := true |}).
  - reflexivity.
  - discriminate.
  - left. reflexivity.
  - reflexivity.
Defined.

Lemma status_next_side_is_next_open_witness :
  status_next_side after_buy_state = "SELL"%string /\
  status_next_side after_buy_state
    = TradeType_name (side (order_in default_config flat_world (fst reversing_tick))) /\
  status_last (snd reversing_tick)
    = TradeType_name (side (order_in default_config flat_world (fst reversing_tick))).
Proof.
  split; [reflexivity|].
  apply (status_next_side_is_next_open default_config flat_world after_buy_state
           _ _ (id default_config)
           (order_in default_config flat_world (fst reversing_tick))
           reversing_tick_eq (or_introl eq_refl) eq_refl).
  discriminate.
Defined.

Lemma status_state_matches_order_witness :
  status_state (- (5 # 2)) = "SHORT"%string /\
  ((status_state (- (5 # 2)) = "FLAT"%string /\
    position_action (order_in default_config short_world (fst closing_tick)) = OPEN) \/
   (status_state (- (5 # 2)) = "LONG"%string /\
    position_action (order_in default_config short_world (fst closing_tick)) = CLOSE /\
    side (order_in default_config short_world (fst closing_tick)) = SELL) \/
   (status_state (- (5 # 2)) = "SHORT"%string /\
    position_action (order_in default_config short_world (fst closing_tick)) = CLOSE /\
    side (order_in default_config short_world (fst closing_tick)) = BUY)).
Proof.
  split; [reflexivity|].
  apply (status_state_matches_order default_config short_world initial_state
           _ _ (id default_config)
           (order_in default_config short_world (fst closing_tick))
           (- (5 # 2)) closing_tick_eq (or_introl eq_refl)).
  reflexivity.
Defined.


Lemma run_opens_alternate_witness :
  all_returned
    (fst (run_ticks default_config
            [flat_world; soon_after_world; later_flat_world] initial_state)) /\
  open_sides
    (fst (run_ticks default_config
            [flat_world; soon_after_world; later_flat_world] initial_state))
    = [SELL; BUY] /\
  alternates (_last_open_side initial_state)
    (open_sides
       (fst (run_ticks default_config
               [flat_world; soon_after_world; later_flat_world] initial_state))).
Proof.
  assert (Hret : all_returned
    (fst (run_ticks default_config
            [flat_world; soon_after_world; later_flat_world] initial_state))).
  { unfold all_returned.
    repeat (apply Forall_cons; [eexists; vm_compute; reflexivity|]).
    apply Forall_nil. }
  split; [exact Hret|]. split; [reflexivity|].
  apply (run_opens_alternate default_config
           [flat_world; soon_after_world; later_flat_world] initial_state Hret).
Defined.
